(** * Load-testing engine of the API tester: profiles, request options, run loop

    Shallow embedding of [src/frontend/components/LoadTesting.tsx]:
    the [testProfiles] table, [buildFetchOptions] and the body of [runTest].

    JavaScript numbers are IEEE-754 binary64 values.  They are modelled by
    [number]: a rational, an infinity or NaN, and every arithmetic operation
    rounds its exact result to 53 significant bits, ties to even
    ([round53]).  Signed zeros, overflow and subnormals are not modelled; the
    theorems bound their inputs so that every intermediate value lies far
    inside the normal range.

    The slider values (users, duration, ramp-up), the latencies
    ([Date.now()] differences, in milliseconds) and the request counters are
    integers and are kept in [Z]; what is computed from them with division
    or a decimal literal is a [number]. *)

From Stdlib Require Import ZArith QArith Qround Qabs Qpower Qreduction Qminmax.
From Stdlib Require Import Lia Lqa List Bool.
From Stdlib Require PrimFloat FloatOps SpecFloat Uint63.
From Stdlib Require Qcanon.
From Stdlib Require Import Sorting.Permutation Sorting.Sorted.
From Stdlib Require Import Strings.String Strings.Ascii.
Import ListNotations.

Local Open Scope Q_scope.

(** ** Rounding to binary64 *)

Module Binary64.

Definition two_pow (e : Z) : Q := 2 ^ e.

(** [ilog2 x] is the exponent of the binade of a positive [x]:
    [2^(ilog2 x) <= x < 2^(ilog2 x + 1)]. *)
Definition ilog2 (x : Q) : Z :=
  let g := (Z.log2 (Qnum x) - Z.log2 (Zpos (Qden x)))%Z in
  if Qle_bool (two_pow g) x then g else (g - 1)%Z.

(** Nearest integer, ties to even. *)
Definition rne (q : Q) : Z :=
  let f := Qfloor q in
  match Qcompare (q - inject_Z f) (1 # 2) with
  | Lt => f
  | Gt => (f + 1)%Z
  | Eq => if Z.even f then f else (f + 1)%Z
  end.

Definition round_pos (x : Q) : Q :=
  let s := two_pow (ilog2 x - 52) in inject_Z (rne (x / s)) * s.

Definition round53 (x : Q) : Q :=
  match Qcompare x 0 with
  | Eq => 0
  | Gt => Qred (round_pos x)
  | Lt => Qred (- round_pos (- x))
  end.

End Binary64.

(** ** JavaScript numbers *)

Inductive number : Type :=
| NaN
| Infinity (negative : bool)
| Fin (q : Q).

Declare Scope js_scope.
Delimit Scope js_scope with js.
Bind Scope js_scope with number.

Module Js.

Import Binary64.

(** An integer as a number, and a decimal literal of the source text. *)
Definition int (z : Z) : number := Fin (inject_Z z).
Definition lit (q : Q) : number := Fin (round53 q).

Definition Qlt_bool (a b : Q) : bool := negb (Qle_bool b a).

Definition neg (x : number) : number :=
  match x with
  | NaN => NaN
  | Infinity s => Infinity (negb s)
  | Fin q => Fin (- q)
  end.

Definition add (x y : number) : number :=
  match x, y with
  | NaN, _ | _, NaN => NaN
  | Infinity s, Infinity s' => if Bool.eqb s s' then Infinity s else NaN
  | Infinity s, Fin _ | Fin _, Infinity s => Infinity s
  | Fin a, Fin b => Fin (round53 (a + b))
  end.

Definition sub (x y : number) : number := add x (neg y).

Definition mul (x y : number) : number :=
  match x, y with
  | NaN, _ | _, NaN => NaN
  | Infinity s, Infinity s' => Infinity (xorb s s')
  | Infinity s, Fin q | Fin q, Infinity s =>
      if Qeq_bool q 0 then NaN else Infinity (xorb s (Qlt_bool q 0))
  | Fin a, Fin b => Fin (round53 (a * b))
  end.

Definition div (x y : number) : number :=
  match x, y with
  | NaN, _ | _, NaN => NaN
  | Infinity _, Infinity _ => NaN
  | Infinity s, Fin q => Infinity (xorb s (Qlt_bool q 0))
  | Fin _, Infinity _ => Fin 0
  | Fin a, Fin b =>
      if Qeq_bool b 0
      then (if Qeq_bool a 0 then NaN else Infinity (Qlt_bool a 0))
      else Fin (round53 (a / b))
  end.

(** Comparison; [None] when an operand is NaN, so that every relational
    operator is then false. *)
Definition compare (x y : number) : option comparison :=
  match x, y with
  | NaN, _ | _, NaN => None
  | Infinity s, Infinity s' =>
      Some (if Bool.eqb s s' then Eq else if s then Lt else Gt)
  | Infinity s, Fin _ => Some (if s then Lt else Gt)
  | Fin _, Infinity s => Some (if s then Gt else Lt)
  | Fin a, Fin b => Some (Qcompare a b)
  end.

Definition leb (x y : number) : bool :=
  match compare x y with Some Lt | Some Eq => true | _ => false end.
Definition ltb (x y : number) : bool :=
  match compare x y with Some Lt => true | _ => false end.
Definition geb (x y : number) : bool := leb y x.
Definition gtb (x y : number) : bool := ltb y x.

End Js.

Infix "+" := Js.add : js_scope.
Infix "-" := Js.sub : js_scope.
Infix "*" := Js.mul : js_scope.
Infix "/" := Js.div : js_scope.
Infix "<=?" := Js.leb (at level 70, no associativity) : js_scope.
Infix "<?" := Js.ltb (at level 70, no associativity) : js_scope.
Infix ">=?" := Js.geb (at level 70, no associativity) : js_scope.
Infix ">?" := Js.gtb (at level 70, no associativity) : js_scope.

(** The [Math] object. *)
Module Math.

Definition floor (x : number) : number :=
  match x with
  | Fin q => Fin (inject_Z (Qfloor q))
  | _ => x
  end.

(** [Math.round]: nearest integer, ties towards [+Infinity]. *)
Definition round (x : number) : number :=
  match x with
  | Fin q => Fin (inject_Z (Qfloor (q + (1 # 2))))
  | _ => x
  end.

Definition max (x y : number) : number :=
  match Js.compare x y with
  | None => NaN
  | Some Lt => y
  | Some _ => x
  end.

Definition min (x y : number) : number :=
  match Js.compare x y with
  | None => NaN
  | Some Gt => y
  | Some _ => x
  end.

End Math.

(** [ToLength], used by [Array.from({ length: n }, ...)]. *)
Definition ToLength (x : number) : nat :=
  match x with
  | NaN => 0%nat
  | Infinity true => 0%nat
  | Infinity false => Z.to_nat 9007199254740991
  | Fin q => Z.to_nat (Z.min (Qfloor q) 9007199254740991)
  end.

(** ** Test profiles ([testProfiles]) *)

Inductive TestProfile : Type := fixed | rampup | spike | stress | custom.

Definition TestProfile_eqb (a b : TestProfile) : bool :=
  match a, b with
  | fixed, fixed | rampup, rampup | spike, spike
  | stress, stress | custom, custom => true
  | _, _ => false
  end.

Record TestProfileConfig : Type := {
  id : TestProfile;
  label : string;
  description : string;
  getUsers : number -> number -> number -> number -> number
}.

Section Profiles.

Local Open Scope js_scope.
Local Notation "0" := (Js.int 0) : js_scope.
Local Notation "1" := (Js.int 1) : js_scope.
Local Notation "2" := (Js.int 2) : js_scope.
Local Notation "3" := (Js.int 3) : js_scope.
Local Notation "4" := (Js.int 4) : js_scope.

Definition fixed_getUsers (_t _d max _rampUp : number) : number := max.

Definition rampup_getUsers (t _d max rampUp : number) : number :=
  if rampUp <=? 0 then max
  else Math.max 1 (Math.floor (max * Math.min 1 ((t + 1) / rampUp))).

Definition spike_getUsers (t duration max _rampUp : number) : number :=
  let mid := Math.floor (duration / 2) in
  let spikeWindow := Math.max 3 (Math.floor (duration * Js.lit (2 # 10))) in
  if (t >=? mid - 1) && (t <? mid - 1 + spikeWindow) then max
  else Math.max 1 (Math.floor (max * Js.lit (1 # 10))).

Definition stress_getUsers (t duration max _rampUp : number) : number :=
  let stages := 4 in
  let stageLen := Math.floor (duration / stages) in
  let stage := Math.min (stages - 1) (Math.floor (t / stageLen)) in
  Math.max 1 (Math.floor (max * ((stage + 1) / stages))).

Definition custom_getUsers (t _d max rampUp : number) : number :=
  if rampUp <=? 0 then max
  else Math.max 1 (Math.floor (max * Math.min 1 ((t + 1) / rampUp))).

End Profiles.

Definition testProfiles : list TestProfileConfig :=
  [ {| id := fixed; label := "Fixed";
       description := "Constant load throughout the test";
       getUsers := fixed_getUsers |};
    {| id := rampup; label := "Ramp Up";
       description := "Gradually increase users over ramp-up time";
       getUsers := rampup_getUsers |};
    {| id := spike; label := "Spike";
       description := "Sudden burst of users at mid-point";
       getUsers := spike_getUsers |};
    {| id := stress; label := "Stress";
       description := "Step-up load in stages to find breaking point";
       getUsers := stress_getUsers |};
    {| id := custom; label := "Custom";
       description := "Fine-tune all parameters manually";
       getUsers := custom_getUsers |} ].

(** [testProfiles.find((p) => p.id === testProfile)!] *)
Definition activeProfile (testProfile : TestProfile) : option TestProfileConfig :=
  List.find (fun p => TestProfile_eqb (id p) testProfile) testProfiles.

(** The profile function selected by [testProfile]; the table has an entry
    for each of the five identifiers. *)
Definition profileUsers (testProfile : TestProfile)
    (t duration maxUsers rampUp : number) : number :=
  match activeProfile testProfile with
  | Some p => getUsers p t duration maxUsers rampUp
  | None => NaN
  end.

(** ** The preview of a profile ([ProfilePreview]) *)

(** [Math.max(...l)] *)
Definition Math_max_of (l : list number) : number :=
  fold_left Math.max l (Infinity true).

(** The tick of the [i]-th of the twenty samples:
    [Math.floor((i / 19) * (duration - 1))]. *)
Definition previewTick (duration : number) (i : nat) : number :=
  Math.floor ((Js.int (Z.of_nat i) / Js.int 19) * (duration - Js.int 1))%js.

(** [Array.from({ length: 20 }, (_, i) => profile.getUsers(t, ...))] *)
Definition previewPoints (profile : TestProfileConfig)
    (duration maxUsers rampUp : number) : list number :=
  map (fun i => getUsers profile (previewTick duration i) duration maxUsers rampUp)
      (seq 0 20).

(** [Math.max(...points, 1)] *)
Definition previewMax (points : list number) : number :=
  Math_max_of (points ++ [Js.int 1]).

(** The points of the path [pathD]: the command letter and the two
    coordinates [(i / 19) * w] and [h - (p / max) * h], with [h = 32] and
    [w = 80].  The conversion of the coordinates to text is left out. *)
Definition previewX (i : nat) : number :=
  ((Js.int (Z.of_nat i) / Js.int 19) * Js.int 80)%js.

Definition previewY (p max : number) : number :=
  (Js.int 32 - (p / max) * Js.int 32)%js.

Definition previewPath (points : list number) : list (string * number * number) :=
  let max := previewMax points in
  map (fun ip : nat * number =>
         let (i, p) := ip in
         ((if (i =? 0)%nat then "M" else "L")%string, previewX i, previewY p max))
      (combine (seq 0 (List.length points)) points).

(** ** Request definition and [buildFetchOptions] *)

Inductive HttpMethod : Type := GET | POST | PUT | PATCH | DELETE | OPTIONS | HEAD.

Definition HttpMethod_eqb (a b : HttpMethod) : bool :=
  match a, b with
  | GET, GET | POST, POST | PUT, PUT | PATCH, PATCH
  | DELETE, DELETE | OPTIONS, OPTIONS | HEAD, HEAD => true
  | _, _ => false
  end.

Module KeyValuePair.
Record t : Type := { key : string; value : string; enabled : bool; id : string }.
End KeyValuePair.

(** Truthiness of a string: the empty string is falsy. *)
Definition truthy (s : string) : bool := negb (String.eqb s "").

(** A [Record<string, string>] object: own properties in insertion order.
    Assigning to an existing key keeps its position; assigning a string to
    ["__proto__"] creates no own property. *)
Definition Obj : Type := list (string * string).

Fixpoint obj_assign (o : Obj) (k v : string) : Obj :=
  match o with
  | [] => [(k, v)]
  | (k', v') :: o' =>
      if String.eqb k' k then (k', v) :: o' else (k', v') :: obj_assign o' k v
  end.

Definition obj_set (o : Obj) (k v : string) : Obj :=
  if String.eqb k "__proto__" then o else obj_assign o k v.

Fixpoint obj_get (o : Obj) (k : string) : option string :=
  match o with
  | [] => None
  | (k', v') :: o' => if String.eqb k' k then Some v' else obj_get o' k
  end.

Definition Object_keys (o : Obj) : list string := map fst o.

(** Objects live in a store and are handled through references, so that
    an assignment through one alias is seen through every other. *)
Definition ref : Type := nat.
Definition Heap : Type := list Obj.

Definition State (A : Type) : Type := Heap -> A * Heap.

Definition ret {A} (a : A) : State A := fun hp => (a, hp).
Definition bind {A B} (m : State A) (f : A -> State B) : State B :=
  fun hp => let (a, hp') := m hp in f a hp'.

Notation "x <- m ;; k" := (bind m (fun x => k))
  (at level 61, m at next level, right associativity).
Notation "m ;;; k" := (bind m (fun _ => k))
  (at level 61, right associativity).

Definition new_object : State ref :=
  fun hp => (List.length hp, hp ++ [[]]).

Definition deref (r : ref) : State Obj :=
  fun hp => (nth r hp [], hp).

Fixpoint heap_update (hp : Heap) (r : ref) (f : Obj -> Obj) : Heap :=
  match hp, r with
  | [], _ => []
  | o :: hp', O => f o :: hp'
  | o :: hp', S r' => o :: heap_update hp' r' f
  end.

Definition set_prop (r : ref) (k v : string) : State unit :=
  fun hp => (tt, heap_update hp r (fun o => obj_set o k v)).

Definition get_prop (r : ref) (k : string) : State (option string) :=
  o <- deref r ;; ret (obj_get o k).

Fixpoint forEach {A} (l : list A) (f : A -> State unit) : State unit :=
  match l with
  | [] => ret tt
  | a :: l' => f a ;;; forEach l' f
  end.

Inductive BodyInit : Type :=
| BodyText (s : string)
| BodyFormData (entries : list (string * string)).

Module RequestInit.
Record t : Type := {
  method : HttpMethod;
  mode : string;
  headers : option ref;
  body : option BodyInit
}.
Definition with_headers (o : t) (h : ref) : t :=
  {| method := method o; mode := mode o; headers := Some h; body := body o |}.
Definition with_body (o : t) (b : BodyInit) : t :=
  {| method := method o; mode := mode o; headers := headers o; body := Some b |}.
End RequestInit.

(** The component state read by [buildFetchOptions] and [runTest]. *)
Record LoadTestingState : Type := {
  method : HttpMethod;
  concurrentUsers : Z;
  duration : Z;
  rampUp : Z;
  testProfile : TestProfile;
  headers : list KeyValuePair.t;
  bodyContent : string;
  bodyType : string;
  authType : string;
  authToken : string
}.

Section BuildFetchOptions.

(** The platform's base64 encoder. *)
Variable btoa : string -> string.

Definition buildFetchOptions (st : LoadTestingState) : State RequestInit.t :=
  let opts := {| RequestInit.method := method st; RequestInit.mode := "no-cors";
                 RequestInit.headers := None; RequestInit.body := None |} in
  h <- new_object ;;
  forEach
    (filter (fun p => KeyValuePair.enabled p && truthy (KeyValuePair.key p))
            (headers st))
    (fun p => set_prop h (KeyValuePair.key p) (KeyValuePair.value p)) ;;;
  (if String.eqb (authType st) "bearer" && truthy (authToken st)
   then set_prop h "Authorization" ("Bearer " ++ authToken st)
   else if String.eqb (authType st) "basic" && truthy (authToken st)
   then set_prop h "Authorization" ("Basic " ++ btoa (authToken st))
   else if String.eqb (authType st) "apikey" && truthy (authToken st)
   then set_prop h "X-API-Key" (authToken st)
   else ret tt) ;;;
  o <- deref h ;;
  let opts := if (0 <? List.length (Object_keys o))%nat
              then RequestInit.with_headers opts h else opts in
  if negb (HttpMethod_eqb (method st) GET) && negb (HttpMethod_eqb (method st) HEAD)
  then
    if String.eqb (bodyType st) "json" && truthy (bodyContent st)
    then
      let opts := RequestInit.with_body opts (BodyText (bodyContent st)) in
      cur <- get_prop h "Content-Type" ;;
      set_prop h "Content-Type"
        (match cur with
         | Some v => if truthy v then v else "application/json"
         | None => "application/json"
         end) ;;;
      ret opts
    else if String.eqb (bodyType st) "raw" && truthy (bodyContent st)
    then ret (RequestInit.with_body opts (BodyText (bodyContent st)))
    else if String.eqb (bodyType st) "formdata"
    then ret (RequestInit.with_body opts (BodyFormData []))
    else ret opts
  else ret opts.

End BuildFetchOptions.

(** The header object [fetch] reads from the options it is given: the
    object [opts.headers] refers to, or none when the property is absent. *)
Definition sentHeaders (res : RequestInit.t * Heap) : option Obj :=
  match RequestInit.headers (fst res) with
  | Some r => Some (nth r (snd res) [])
  | None => None
  end.

(** [buildFetchOptions] run in an empty store. *)
Definition materialize (btoa : string -> string) (st : LoadTestingState)
  : RequestInit.t * Heap :=
  buildFetchOptions btoa st [].

(** ** The request URL ([buildUrl]) *)

(** [s.includes(sub)] *)
Fixpoint includes (s sub : string) : bool :=
  if String.prefix sub s then true
  else match s with
       | EmptyString => false
       | String _ s' => includes s' sub
       end.

Section BuildUrl.

(** The platform's percent-encoder. *)
Variable encodeURIComponent : string -> string.

(** [`${encodeURIComponent(p.key)}=${encodeURIComponent(p.value)}`] *)
Definition queryPair (p : KeyValuePair.t) : string :=
  (encodeURIComponent (KeyValuePair.key p) ++ "="
     ++ encodeURIComponent (KeyValuePair.value p))%string.

(** [buildUrl], of the [url] and the [params] rows of the component
    state. *)
Definition buildUrl (url : string) (params : list KeyValuePair.t) : string :=
  let active :=
    filter (fun p => KeyValuePair.enabled p && truthy (KeyValuePair.key p)) params in
  if (0 <? List.length active)%nat
  then
    let sep := if includes url "?" then "&"%string else "?"%string in
    (url ++ sep ++ String.concat "&" (map queryPair active))%string
  else url.

End BuildUrl.

(** ** The classes of a response status ([getStatusColor], [getStatusBg]) *)

(** [x === y] on numbers. *)
Definition strict_eq (x y : number) : bool :=
  match Js.compare x y with
  | Some Eq => true
  | _ => false
  end.

Definition getStatusColor (status : number) : string :=
  if strict_eq status (Js.int 0) then "text-destructive"
  else if (status <? Js.int 300)%js then "text-success"
  else if (status <? Js.int 400)%js then "text-warning"
  else "text-destructive".

Definition getStatusBg (status : number) : string :=
  if strict_eq status (Js.int 0) then "bg-destructive/10"
  else if (status <? Js.int 300)%js then "bg-success/10"
  else if (status <? Js.int 400)%js then "bg-warning/10"
  else "bg-destructive/10".

(** ** The run loop ([runTest]) *)

(** What one [fetch] does: it resolves after [dur] milliseconds
    ([Date.now() - rs], an integer), or it rejects. *)
Inductive FetchResult : Type :=
| Resolved (dur : Z)
| Rejected.

(** The environment of a run: the outcome of the [i]-th request of tick [t],
    and the value of [cancelRef.current] read at the top of tick [t]. *)
Record Env : Type := {
  fetch : nat -> nat -> FetchResult;
  cancelRef : nat -> bool
}.

Module MetricPoint.
Record t : Type := {
  time : number;
  avgResponseTime : number;
  p95 : number;
  p99 : number;
  rps : number;
  errorRate : number;
  activeUsers : number
}.
End MetricPoint.

Module TestSummary.
Record t : Type := {
  totalRequests : Z;
  successCount : Z;
  errorCount : Z;
  avgResponseTime : number;
  minResponseTime : Z;
  maxResponseTime : Z;
  p95 : option Z;
  p99 : option Z;
  rps : number
}.
End TestSummary.

(** [[...l].sort((a, b) => a - b)] on integers: the ascending arrangement. *)
Fixpoint insert_asc (x : Z) (l : list Z) : list Z :=
  match l with
  | [] => [x]
  | y :: l' => if (x <=? y)%Z then x :: l else y :: insert_asc x l'
  end.

Fixpoint sort_asc (l : list Z) : list Z :=
  match l with
  | [] => []
  | x :: l' => insert_asc x (sort_asc l')
  end.

(** [l[i]] for a number [i]: the element when [i] is an integer index in
    range, [undefined] ([None]) otherwise. *)
Definition array_get (l : list Z) (i : number) : option Z :=
  match i with
  | Fin q =>
      if Qeq_bool q (inject_Z (Qfloor q)) && (0 <=? Qfloor q)%Z
      then nth_error l (Z.to_nat (Qfloor q))
      else None
  | _ => None
  end.

Definition length_num {A} (l : list A) : number :=
  Js.int (Z.of_nat (List.length l)).

(** [l.reduce((a, b) => a + b, 0)] *)
Definition reduce_sum (l : list Z) : number :=
  fold_left (fun a b => (a + Js.int b)%js) l (Js.int 0).

(** [l.length ? l.reduce((a, b) => a + b, 0) / l.length : 0] *)
Definition average (l : list Z) : number :=
  match l with
  | [] => Js.int 0
  | _ => (reduce_sum l / length_num l)%js
  end.

(** [sorted.length ? sorted[Math.floor(sorted.length * p)] : 0], for the
    literal [p] of the source. *)
Definition percentile (p : Q) (sorted : list Z) : option Z :=
  match sorted with
  | [] => Some 0%Z
  | _ => array_get sorted (Math.floor (length_num sorted * Js.lit p)%js)
  end.

(** [Math.round] of a possibly [undefined] array element. *)
Definition round_elem (v : option Z) : number :=
  match v with
  | Some z => Math.round (Js.int z)
  | None => NaN
  end.

Definition result_of (r : FetchResult) : Z :=
  match r with
  | Resolved dur => dur
  | Rejected => (-1)%Z
  end.

Definition resolved_times (rs : list FetchResult) : list Z :=
  flat_map (fun r => match r with Resolved dur => [dur] | Rejected => [] end) rs.

Definition rejected_count (rs : list FetchResult) : Z :=
  Z.of_nat (List.length (filter (fun r => match r with Rejected => true | _ => false end) rs)).

(** [Math.round(x * k) / 100] *)
Definition round_scaled (x : number) (k : Z) : number :=
  (Math.round (x * Js.int k) / Js.int 100)%js.

Record RunState : Type := {
  allTimes : list Z;
  totalReqs : Z;
  errors : Z;
  metrics : list MetricPoint.t
}.

Definition initialRun : RunState :=
  {| allTimes := []; totalReqs := 0; errors := 0; metrics := [] |}.

Section RunTest.

Variable st : LoadTestingState.
Variable env : Env.

(** The requests of tick [t]: one per active user. *)
Definition tickUsers (t : nat) : number :=
  profileUsers (testProfile st) (Js.int (Z.of_nat t)) (Js.int (duration st))
    (Js.int (concurrentUsers st)) (Js.int (rampUp st)).

Definition tickOutcomes (t : nat) : list FetchResult :=
  map (fetch env t) (seq 0 (ToLength (tickUsers t))).

(** [results.filter((r) => r > 0)] *)
Definition tickValid (t : nat) : list Z :=
  filter (fun r => (0 <? r)%Z) (map result_of (tickOutcomes t)).

(** One iteration of the [for] loop, after the cancellation check.  The
    requests of a tick settle in any order and push their latencies in that
    order; they are taken in request order here, and the summary sorts the
    history before it reads it. *)
Definition tick (t : nat) (rs : RunState) : RunState :=
  let outcomes := tickOutcomes t in
  let allTimes' := (allTimes rs ++ resolved_times outcomes)%list in
  let totalReqs' := (totalReqs rs + Z.of_nat (List.length outcomes))%Z in
  let errors' := (errors rs + rejected_count outcomes)%Z in
  let valid := tickValid t in
  let sorted := sort_asc valid in
  let avg := average valid in
  let p95 := percentile (95 # 100) sorted in
  let p99 := percentile (99 # 100) sorted in
  let point :=
    {| MetricPoint.time := Js.int (Z.of_nat t + 1);
       MetricPoint.avgResponseTime := Math.round avg;
       MetricPoint.p95 := round_elem p95;
       MetricPoint.p99 := round_elem p99;
       MetricPoint.rps :=
         round_scaled (Js.int totalReqs' / Js.int (Z.of_nat t + 1))%js 100;
       MetricPoint.errorRate :=
         if (0 <? totalReqs')%Z
         then round_scaled (Js.int errors' / Js.int totalReqs')%js 10000
         else Js.int 0;
       MetricPoint.activeUsers := tickUsers t |} in
  {| allTimes := allTimes'; totalReqs := totalReqs'; errors := errors';
     metrics := (metrics rs ++ [point])%list |}.

(** [for (let t = 0; t < duration; t++) { if (cancelRef.current) break; ... }]
    with [n] iterations left. *)
Fixpoint loop (n : nat) (t : nat) (rs : RunState) : RunState :=
  match n with
  | O => rs
  | S n' => if cancelRef env t then rs else loop n' (S t) (tick t rs)
  end.

Definition summarize (rs : RunState) : TestSummary.t :=
  let sortedAll := sort_asc (allTimes rs) in
  {| TestSummary.totalRequests := totalReqs rs;
     TestSummary.successCount := (totalReqs rs - errors rs)%Z;
     TestSummary.errorCount := errors rs;
     TestSummary.avgResponseTime :=
       match sortedAll with
       | [] => Js.int 0
       | _ => Math.round (reduce_sum sortedAll / length_num sortedAll)%js
       end;
     TestSummary.minResponseTime :=
       match nth_error sortedAll 0 with Some z => z | None => 0%Z end;
     TestSummary.maxResponseTime :=
       match nth_error sortedAll (List.length sortedAll - 1) with
       | Some z => z | None => 0%Z end;
     TestSummary.p95 := percentile (95 # 100) sortedAll;
     TestSummary.p99 := percentile (99 # 100) sortedAll;
     TestSummary.rps :=
       if (0 <? duration st)%Z
       then round_scaled (Js.int (totalReqs rs) / Js.int (duration st))%js 100
       else Js.int 0 |}.

(** [sortedAll[0] ?? 0] and [sortedAll[sortedAll.length - 1] ?? 0] above: on
    the empty array both elements are [undefined].

    The state at the end of the loop, and what [runTest] hands to
    [setMetrics] and [setSummary]. *)
Definition finalRun : RunState := loop (Z.to_nat (duration st)) 0 initialRun.

Definition runTest : list MetricPoint.t * TestSummary.t :=
  (metrics finalRun, summarize finalRun).

End RunTest.


(** ** The profile formulas of the specification

    Section 4.1 of the specification, read in exact arithmetic:
    [floor] is the integer part of an exact rational. *)

Module Spec.

(** max(1, floor(maxUsers * min(1, (tick+1)/rampUp))); maxUsers when
    rampUp <= 0. *)
Definition rampup (t maxUsers rampUp : Z) : Z :=
  if (rampUp <=? 0)%Z then maxUsers
  else Z.max 1 (Qfloor (inject_Z maxUsers * Qmin 1 (inject_Z (t + 1) / inject_Z rampUp))).

(** maxUsers in the window of max(3, floor(duration * 0.2)) ticks that
    starts one tick before floor(duration / 2); max(1, floor(maxUsers * 0.1))
    outside. *)
Definition spike (t duration maxUsers : Z) : Z :=
  let mid := Qfloor (inject_Z duration / 2) in
  let spikeWindow := Z.max 3 (Qfloor (inject_Z duration * (2 # 10))) in
  if ((mid - 1 <=? t) && (t <? mid - 1 + spikeWindow))%Z then maxUsers
  else Z.max 1 (Qfloor (inject_Z maxUsers * (1 # 10))).

(** max(1, floor(maxUsers * (s+1)/4)) with s = min(3, floor(t / floor(duration/4))). *)
Definition stress (t duration maxUsers : Z) : Z :=
  let stageLen := Qfloor (inject_Z duration / 4) in
  let s := Z.min 3 (Qfloor (inject_Z t / inject_Z stageLen)) in
  Z.max 1 (Qfloor (inject_Z maxUsers * (inject_Z (s + 1) / 4))).

End Spec.

(** ** Auxiliary notions of the statements *)

(** The integers on which binary64 arithmetic is exact. *)
Definition safe (z : Z) : Prop := (Z.abs z <= 9007199254740992)%Z.

Definition zsum (l : list Z) : Z := fold_right Z.add 0%Z l.
Definition sum_abs (l : list Z) : Z := fold_right (fun x a => (Z.abs x + a)%Z) 0%Z l.

(** The state with another authentication setting. *)
Definition with_auth (st : LoadTestingState) (kind token : string) : LoadTestingState :=
  {| method := method st; concurrentUsers := concurrentUsers st;
     duration := duration st; rampUp := rampUp st; testProfile := testProfile st;
     headers := headers st; bodyContent := bodyContent st; bodyType := bodyType st;
     authType := kind; authToken := token |}.

(** The initial form of the component, switched to a POST request with a
    JSON body: one empty header row, no authentication. *)
Definition bareJsonPost : LoadTestingState :=
  {| method := POST; concurrentUsers := 10; duration := 30; rampUp := 5;
     testProfile := rampup;
     headers := [ {| KeyValuePair.key := ""; KeyValuePair.value := "";
                     KeyValuePair.enabled := true; KeyValuePair.id := "h1" |} ];
     bodyContent := "{}"; bodyType := "json";
     authType := "none"; authToken := "" |}.

(** The header object after the header rows and the authentication step,
    as a function of the state. *)
Definition callerHeaders (btoa : string -> string) (st : LoadTestingState) : Obj :=
  let h :=
    fold_left (fun o p => obj_set o (KeyValuePair.key p) (KeyValuePair.value p))
      (filter (fun p => KeyValuePair.enabled p && truthy (KeyValuePair.key p))
              (headers st)) [] in
  if String.eqb (authType st) "bearer" && truthy (authToken st)
  then obj_set h "Authorization" ("Bearer " ++ authToken st)
  else if String.eqb (authType st) "basic" && truthy (authToken st)
  then obj_set h "Authorization" ("Basic " ++ btoa (authToken st))
  else if String.eqb (authType st) "apikey" && truthy (authToken st)
  then obj_set h "X-API-Key" (authToken st)
  else h.

(** [h["Content-Type"] || "application/json"] *)
Definition contentTypeOr (h : Obj) : string :=
  match obj_get h "Content-Type" with
  | Some v => if truthy v then v else "application/json"
  | None => "application/json"
  end.

(** The environment in which request [i] of tick [t] rejects. *)
Definition failing_instead (env : Env) (t i : nat) : Env :=
  {| fetch := fun t' i' =>
       if ((t' =? t) && (i' =? i))%nat then Rejected else fetch env t' i';
     cancelRef := cancelRef env |}.

(** A two second run of three constant users: in every tick the first
    request answers within the same millisecond, the second is refused and
    the third takes 120 ms. *)
Definition sampleState : LoadTestingState :=
  {| method := GET; concurrentUsers := 3; duration := 2; rampUp := 0;
     testProfile := fixed; headers := [];
     bodyContent := ""; bodyType := "json"; authType := "none"; authToken := "" |}.

Definition sampleEnv : Env :=
  {| fetch := fun _ i =>
       match i with
       | O => Resolved 0
       | S O => Rejected
       | _ => Resolved 120
       end;
     cancelRef := fun _ => false |}.

(** The rows that count: enabled, with a key. *)
Definition activeRows (rows : list KeyValuePair.t) : list KeyValuePair.t :=
  filter (fun p => KeyValuePair.enabled p && truthy (KeyValuePair.key p)) rows.

Definition row (k v : string) (on : bool) : KeyValuePair.t :=
  {| KeyValuePair.key := k; KeyValuePair.value := v;
     KeyValuePair.enabled := on; KeyValuePair.id := "" |}.

(** The state with other header rows. *)
Definition with_rows (st : LoadTestingState) (rows : list KeyValuePair.t)
  : LoadTestingState :=
  {| method := method st; concurrentUsers := concurrentUsers st;
     duration := duration st; rampUp := rampUp st; testProfile := testProfile st;
     headers := rows; bodyContent := bodyContent st; bodyType := bodyType st;
     authType := authType st; authToken := authToken st |}.

(** The state with another load setting. *)
Definition with_load (st : LoadTestingState) (profile : TestProfile)
    (users seconds ramp : Z) : LoadTestingState :=
  {| method := method st; concurrentUsers := users; duration := seconds;
     rampUp := ramp; testProfile := profile; headers := headers st;
     bodyContent := bodyContent st; bodyType := bodyType st;
     authType := authType st; authToken := authToken st |}.

(** [encodeURIComponent] on the UTF-8 bytes of a well-formed string: the
    letters, the digits and [- _ . ! ~ * ' ( )] are kept, every other byte
    becomes [%] and two upper-case hexadecimal digits. *)
Definition unreserved (a : ascii) : bool :=
  let n := nat_of_ascii a in
  ((65 <=? n) && (n <=? 90) || (97 <=? n) && (n <=? 122) || (48 <=? n) && (n <=? 57)
   || existsb (Ascii.eqb a)
        ["-"; "_"; "."; "!"; "~"; "*"; "'"; "("; ")"]%char)%nat.

Definition hexDigit (n : nat) : ascii :=
  nth n ["0"; "1"; "2"; "3"; "4"; "5"; "6"; "7"; "8"; "9";
         "A"; "B"; "C"; "D"; "E"; "F"]%char "0"%char.

Fixpoint percentEncode (s : string) : string :=
  match s with
  | EmptyString => EmptyString
  | String a s' =>
      if unreserved a then String a (percentEncode s')
      else String "%" (String (hexDigit (nat_of_ascii a / 16))
                         (String (hexDigit (nat_of_ascii a mod 16))
                            (percentEncode s')))
  end.

(** The occurrences of a character in a string. *)
Fixpoint count_char (c : ascii) (s : string) : nat :=
  match s with
  | EmptyString => 0
  | String a s' => (if Ascii.eqb a c then 1 else 0) + count_char c s'
  end.

(** The same requests, and a stop flag that is never set. *)
Definition never_cancelled (env : Env) : Env :=
  {| fetch := fetch env; cancelRef := fun _ => false |}.


(** The counters and the latency history of a run are in step. *)
Definition counted (rs : RunState) : Prop :=
  (Z.of_nat (List.length (allTimes rs)) = totalReqs rs - errors rs)%Z /\
  (0 <= errors rs <= totalReqs rs)%Z.

(** A metric point a chart can draw: whole, non-negative latencies with
    [p95 <= p99], an error rate that is a percentage, and a request rate
    that is not negative. *)
Definition plottable (p : MetricPoint.t) : Prop :=
  (exists a, MetricPoint.avgResponseTime p = Js.int a /\ (0 <= a)%Z) /\
  (exists x y, MetricPoint.p95 p = Js.int x /\ MetricPoint.p99 p = Js.int y /\
               (0 <= x <= y)%Z) /\
  (exists e, MetricPoint.errorRate p = Fin e /\ 0 <= e <= 100) /\
  (exists r, MetricPoint.rps p = Fin r /\ 0 <= r).

(** A metric point within the load that was asked for: between one and
    [users] active users, and as many requests per second overall. *)
Definition within_load (users : Z) (p : MetricPoint.t) : Prop :=
  (exists k, MetricPoint.activeUsers p = Js.int k /\ (1 <= k <= users)%Z) /\
  (exists r, MetricPoint.rps p = Fin r /\ 1 <= r <= inject_Z users).

(** ** The kernel's binary64 floats, to compare [round53] with *)

Definition float_of_Z (z : Z) : PrimFloat.float :=
  PrimFloat.of_uint63 (Uint63.of_Z z).

Definition Q_of_float (f : PrimFloat.float) : option Q :=
  match FloatOps.Prim2SF f with
  | SpecFloat.S754_zero _ => Some 0
  | SpecFloat.S754_finite s m e =>
      let v := inject_Z (Zpos m) * Binary64.two_pow e in
      Some (Qred (if s then - v else v))
  | _ => None
  end.

Definition same_value (f : PrimFloat.float) (q : Q) : bool :=
  match Q_of_float f with
  | Some q' => Qeq_bool q' q
  | None => false
  end.

Definition zrange (lo n : nat) : list Z := map Z.of_nat (seq lo n).

(** [m * (a / b)] in both models. *)
Definition agree_mul_div (m a b : Z) : bool :=
  same_value (PrimFloat.mul (float_of_Z m) (PrimFloat.div (float_of_Z a) (float_of_Z b)))
             (Binary64.round53 (inject_Z m * Binary64.round53 (inject_Z a / inject_Z b))).

(** [n * (p / q)] for a decimal literal [p / q] of the source. *)
Definition agree_mul_lit (n p q : Z) : bool :=
  same_value (PrimFloat.mul (float_of_Z n) (PrimFloat.div (float_of_Z p) (float_of_Z q)))
             (Binary64.round53 (inject_Z n * Binary64.round53 (Qmake p (Z.to_pos q)))).
(** * Properties *)

(** ** The binary64 rounding *)

Import Binary64.

Section Rounding.

Lemma two_pow_pos e : 0 < two_pow e.
Proof. apply Qpower_0_lt. reflexivity. Qed.

Lemma two_pow_add a b : two_pow (a + b) == two_pow a * two_pow b.
Proof. apply Qpower_plus. discriminate. Qed.

Lemma two_pow_succ e : two_pow (e + 1) == 2 * two_pow e.
Proof. rewrite two_pow_add. unfold two_pow at 2. simpl. ring. Qed.

Lemma two_pow_le a b : (a <= b)%Z -> two_pow a <= two_pow b.
Proof. intros H. apply Qpower_le_compat_l; [exact H | discriminate]. Qed.

Lemma two_pow_Z n : (0 <= n)%Z -> two_pow n == inject_Z (2 ^ n).
Proof. intros H. unfold two_pow. rewrite Zpower_Qpower by exact H. reflexivity. Qed.

Lemma Q_as_quot (x : Q) : inject_Z (Qnum x) == x * inject_Z (Zpos (Qden x)).
Proof.
  destruct x as [n d]. unfold Qeq, Qmult, inject_Z. simpl. lia.
Qed.

Lemma ilog2_spec x : 0 < x -> two_pow (ilog2 x) <= x < two_pow (ilog2 x + 1).
Proof.
  intros Hx.
  pose proof (Q_as_quot x) as Hq.
  assert (Hn : (0 < Qnum x)%Z).
  { destruct x as [n d]. unfold Qlt in Hx. simpl in *. lia. }
  destruct (Z.log2_spec (Qnum x) Hn) as [Ha1 Ha2].
  destruct (Z.log2_spec (Zpos (Qden x)) (Pos2Z.is_pos _)) as [Hb1 Hb2].
  set (a := Z.log2 (Qnum x)) in *. set (b := Z.log2 (Zpos (Qden x))) in *.
  assert (Ha : (0 <= a)%Z) by apply Z.log2_nonneg.
  assert (Hb : (0 <= b)%Z) by apply Z.log2_nonneg.
  rewrite Zle_Qle in Ha1, Hb1. rewrite Zlt_Qlt in Ha2, Hb2.
  rewrite <- two_pow_Z in Ha1, Hb1 by lia.
  replace (Z.succ a) with (a + 1)%Z in Ha2 by lia.
  replace (Z.succ b) with (b + 1)%Z in Hb2 by lia.
  rewrite <- two_pow_Z in Ha2, Hb2 by lia.
  set (N := inject_Z (Qnum x)) in *. set (D := inject_Z (Zpos (Qden x))) in *.
  assert (HD : 0 < D) by (pose proof (two_pow_pos b); lra).
  unfold ilog2. fold a b.
  destruct (Qle_bool (two_pow (a - b)) x) eqn:E.
  - apply Qle_bool_iff in E. split; [exact E|].
    assert (Hp : two_pow (a - b + 1) * two_pow b == two_pow (a + 1)).
    { rewrite <- two_pow_add. replace (a - b + 1 + b)%Z with (a + 1)%Z by lia. reflexivity. }
    pose proof (two_pow_pos (a - b + 1)). pose proof (two_pow_pos b).
    apply Qnot_le_lt. intros Hc. nra.
  - assert (E' : x < two_pow (a - b)).
    { apply Qnot_le_lt. intros Hc. apply Qle_bool_iff in Hc. congruence. }
    replace (a - b - 1 + 1)%Z with (a - b)%Z by lia. split; [|exact E'].
    assert (Hp : two_pow (a - b - 1) * two_pow (b + 1) == two_pow a).
    { rewrite <- two_pow_add. replace (a - b - 1 + (b + 1))%Z with a by lia. reflexivity. }
    pose proof (two_pow_pos (a - b - 1)). pose proof (two_pow_pos (b + 1)).
    apply Qnot_lt_le. intros Hc. nra.
Qed.

Lemma ilog2_unique x e : two_pow e <= x < two_pow (e + 1) -> ilog2 x = e.
Proof.
  intros [H1 H2].
  assert (Hx : 0 < x) by (pose proof (two_pow_pos e); lra).
  destruct (ilog2_spec x Hx) as [L1 L2].
  destruct (Z.lt_trichotomy (ilog2 x) e) as [C | [C | C]]; [exfalso | exact C | exfalso].
  - assert (two_pow (ilog2 x + 1) <= two_pow e) by (apply two_pow_le; lia). lra.
  - assert (two_pow (e + 1) <= two_pow (ilog2 x)) by (apply two_pow_le; lia). lra.
Qed.

Lemma ilog2_comp x y : 0 < x -> x == y -> ilog2 x = ilog2 y.
Proof.
  intros Hx E. symmetry. apply ilog2_unique. rewrite <- E. apply ilog2_spec, Hx.
Qed.

Lemma ilog2_mono x y : 0 < x -> x <= y -> (ilog2 x <= ilog2 y)%Z.
Proof.
  intros Hx Hxy.
  destruct (ilog2_spec x Hx) as [L1 _].
  destruct (ilog2_spec y) as [_ M2]; [lra|].
  apply Z.lt_succ_r. unfold Z.succ.
  apply (Qpower_lt_compat_l_inv 2); [|reflexivity].
  fold (two_pow (ilog2 x)) (two_pow (ilog2 y + 1)). lra.
Qed.

Lemma rne_spec q : - (1 # 2) <= inject_Z (rne q) - q <= 1 # 2.
Proof.
  unfold rne. pose proof (Qfloor_le q) as F1. pose proof (Qlt_floor q) as F2.
  rewrite inject_Z_plus in F2. change (inject_Z 1) with 1 in F2.
  destruct (Qcompare_spec (q - inject_Z (Qfloor q)) (1 # 2)) as [E | E | E].
  - destruct (Z.even (Qfloor q));
      [|rewrite inject_Z_plus; change (inject_Z 1) with 1]; lra.
  - lra.
  - rewrite inject_Z_plus. change (inject_Z 1) with 1. lra.
Qed.

Lemma rne_comp q q' : q == q' -> rne q = rne q'.
Proof.
  intros E. unfold rne. rewrite (Qfloor_comp _ _ E).
  assert (E2 : q - inject_Z (Qfloor q') == q' - inject_Z (Qfloor q')) by (rewrite E; reflexivity).
  rewrite (Qcompare_comp _ _ E2 (1#2) (1#2) (Qeq_refl _)). reflexivity.
Qed.

Lemma rne_Z z : rne (inject_Z z) = z.
Proof.
  unfold rne. rewrite Qfloor_Z.
  assert (E : inject_Z z - inject_Z z == 0) by ring.
  rewrite (Qcompare_comp _ _ E (1#2) (1#2) (Qeq_refl _)). reflexivity.
Qed.

Lemma rne_mono q q' : q <= q' -> (rne q <= rne q')%Z.
Proof.
  intros H. destruct (Z.le_gt_cases (rne q) (rne q')) as [C | C]; [exact C | exfalso].
  pose proof (rne_spec q) as S. pose proof (rne_spec q') as S'.
  assert (C' : inject_Z (rne q') + 1 <= inject_Z (rne q)).
  { change 1 with (inject_Z 1). rewrite <- inject_Z_plus. rewrite <- Zle_Qle. lia. }
  assert (E : q == q') by lra.
  rewrite (rne_comp _ _ E) in C. lia.
Qed.

Lemma two_pow_52 : two_pow 52 == 4503599627370496.
Proof. reflexivity. Qed.

Lemma two_pow_53 : two_pow 53 == 9007199254740992.
Proof. reflexivity. Qed.

(** Decomposition of a positive [x] on its binade grid. *)
Lemma round_pos_decomp x :
  0 < x ->
  exists y s, s = two_pow (ilog2 x - 52) /\ 0 < s /\ x == y * s /\
              4503599627370496 <= y < 9007199254740992 /\
              round_pos x == inject_Z (rne y) * s.
Proof.
  intros Hx. set (s := two_pow (ilog2 x - 52)).
  assert (Hs : 0 < s) by apply two_pow_pos.
  exists (x / s), s. repeat split; try assumption.
  - field. lra.
  - destruct (ilog2_spec x Hx) as [L _].
    replace (ilog2 x) with (52 + (ilog2 x - 52))%Z in L by lia.
    rewrite two_pow_add, two_pow_52 in L. fold s in L.
    apply Qle_shift_div_l; assumption.
  - destruct (ilog2_spec x Hx) as [_ L].
    replace (ilog2 x + 1)%Z with (53 + (ilog2 x - 52))%Z in L by lia.
    rewrite two_pow_add, two_pow_53 in L. fold s in L.
    apply Qlt_shift_div_r; assumption.
Qed.

Lemma rne_range y :
  4503599627370496 <= y < 9007199254740992 ->
  (4503599627370496 <= rne y <= 9007199254740992)%Z.
Proof.
  intros [H1 H2]. split.
  - rewrite <- (rne_Z 4503599627370496). apply rne_mono. exact H1.
  - rewrite <- (rne_Z 9007199254740992). apply rne_mono.
    apply Qlt_le_weak. exact H2.
Qed.

Lemma round_pos_pos x : 0 < x -> 0 < round_pos x.
Proof.
  intros Hx. destruct (round_pos_decomp x Hx) as (y & s & _ & Hs & _ & Hy & ->).
  destruct (rne_range y Hy) as [R _]. rewrite Zle_Qle in R.
  change (inject_Z 4503599627370496) with 4503599627370496 in R. nra.
Qed.

Lemma round_pos_err x : 0 < x -> Qabs (round_pos x - x) <= x * (1 # 9007199254740992).
Proof.
  intros Hx. destruct (round_pos_decomp x Hx) as (y & s & _ & Hs & Ex & Hy & ->).
  pose proof (rne_spec y) as R. rewrite Ex.
  apply Qabs_Qle_condition. split; nra.
Qed.

Lemma round_pos_comp x x' : 0 < x -> x == x' -> round_pos x == round_pos x'.
Proof.
  intros Hx E. unfold round_pos. rewrite <- (ilog2_comp x x' Hx E).
  assert (E2 : x / two_pow (ilog2 x - 52) == x' / two_pow (ilog2 x - 52))
    by (apply Qmult_comp; [exact E | reflexivity]).
  rewrite (rne_comp _ _ E2). reflexivity.
Qed.

Lemma round_pos_mono x x' : 0 < x -> x <= x' -> round_pos x <= round_pos x'.
Proof.
  intros Hx Hle. assert (Hx' : 0 < x') by lra.
  pose proof (ilog2_mono x x' Hx Hle) as He.
  destruct (round_pos_decomp x Hx) as (y & s & Es & Hs & Ex & Hy & ->).
  destruct (round_pos_decomp x' Hx') as (y' & s' & Es' & Hs' & Ex' & Hy' & ->).
  destruct (Z.eq_dec (ilog2 x) (ilog2 x')) as [C | C].
  - rewrite <- C in Es'. subst s'. rewrite <- Es in *. clear Es.
    assert (Hyy : y <= y') by nra.
    pose proof (rne_mono y y' Hyy) as R. rewrite Zle_Qle in R. nra.
  - assert (Hss : 2 * s <= s').
    { subst s s'. rewrite <- two_pow_succ. apply two_pow_le. lia. }
    destruct (rne_range y Hy) as [_ R]. destruct (rne_range y' Hy') as [R' _].
    rewrite Zle_Qle in R, R'.
    change (inject_Z 9007199254740992) with 9007199254740992 in R.
    change (inject_Z 4503599627370496) with 4503599627370496 in R'.
    apply Qle_trans with (9007199254740992 * s); [nra|].
    apply Qle_trans with (4503599627370496 * s'); nra.
Qed.

Lemma round_pos_grid x :
  0 < x ->
  (exists m : Z, x / two_pow (ilog2 x - 52) == inject_Z m) ->
  round_pos x == x.
Proof.
  intros Hx [m Hm]. unfold round_pos. rewrite (rne_comp _ _ Hm), rne_Z, <- Hm.
  field. pose proof (two_pow_pos (ilog2 x - 52)). lra.
Qed.

Lemma round_pos_dyadic (z k : Z) :
  (0 < z < 9007199254740992)%Z ->
  round_pos (inject_Z z * two_pow k) == inject_Z z * two_pow k.
Proof.
  intros [Hz1 Hz2].
  destruct (Z.log2_spec z Hz1) as [L1 L2].
  assert (Hl : (0 <= Z.log2 z < 53)%Z).
  { split; [apply Z.log2_nonneg|]. apply Z.log2_lt_pow2; [lia|]. exact Hz2. }
  pose proof (two_pow_pos k) as Hk.
  assert (Hzq : 0 < inject_Z z) by (change 0 with (inject_Z 0); rewrite <- Zlt_Qlt; lia).
  assert (E : ilog2 (inject_Z z * two_pow k) = (Z.log2 z + k)%Z).
  { apply ilog2_unique.
    rewrite Zle_Qle in L1. rewrite Zlt_Qlt in L2.
    rewrite <- two_pow_Z in L1 by lia.
    replace (Z.succ (Z.log2 z)) with (Z.log2 z + 1)%Z in L2 by lia.
    rewrite <- two_pow_Z in L2 by lia.
    replace (Z.log2 z + k + 1)%Z with ((Z.log2 z + 1) + k)%Z by lia.
    rewrite (two_pow_add (Z.log2 z) k), (two_pow_add (Z.log2 z + 1) k).
    split; nra. }
  apply round_pos_grid; [nra|].
  exists (z * 2 ^ (52 - Z.log2 z))%Z. rewrite E, inject_Z_mult, <- two_pow_Z by lia.
  replace k with ((Z.log2 z + k - 52) + (52 - Z.log2 z))%Z at 1 by lia.
  rewrite two_pow_add. field.
  pose proof (two_pow_pos (Z.log2 z + k - 52)). lra.
Qed.

Lemma round53_pos x : 0 < x -> round53 x == round_pos x.
Proof.
  intros H. unfold round53. rewrite Qgt_alt in H. rewrite H. apply Qred_correct.
Qed.

Lemma round53_neg x : x < 0 -> round53 x == - round_pos (- x).
Proof.
  intros H. unfold round53. rewrite Qlt_alt in H. rewrite H. apply Qred_correct.
Qed.

Lemma round53_zero x : x == 0 -> round53 x = 0.
Proof.
  intros H. unfold round53. rewrite Qeq_alt in H. rewrite H. reflexivity.
Qed.

Lemma round53_comp x x' : x == x' -> round53 x = round53 x'.
Proof.
  intros E. unfold round53.
  rewrite <- (Qcompare_comp _ _ E 0 0 (Qeq_refl 0)).
  destruct (Qcompare_spec x 0) as [H | H | H].
  - reflexivity.
  - apply Qred_complete. apply Qopp_comp. apply round_pos_comp; [lra|].
    rewrite E. reflexivity.
  - apply Qred_complete. apply round_pos_comp; assumption.
Qed.

Lemma round53_sign_pos x : 0 < x -> 0 < round53 x.
Proof. intros H. rewrite (round53_pos x H). apply round_pos_pos, H. Qed.

Lemma round53_sign_neg x : x < 0 -> round53 x < 0.
Proof.
  intros H. rewrite (round53_neg x H).
  assert (0 < round_pos (- x)) by (apply round_pos_pos; lra). lra.
Qed.

(** Rounding is monotone. *)
Lemma round53_mono x y : x <= y -> round53 x <= round53 y.
Proof.
  intros H.
  destruct (Q_dec x 0) as [[Hx | Hx] | Hx]; destruct (Q_dec y 0) as [[Hy | Hy] | Hy];
    try (exfalso; lra).
  - rewrite (round53_neg x Hx), (round53_neg y Hy).
    assert (round_pos (- y) <= round_pos (- x)) by (apply round_pos_mono; lra). lra.
  - pose proof (round53_sign_neg x Hx). pose proof (round53_sign_pos y Hy). lra.
  - pose proof (round53_sign_neg x Hx). rewrite (round53_zero y Hy). lra.
  - rewrite (round53_pos x Hx), (round53_pos y Hy). apply round_pos_mono; assumption.
  - pose proof (round53_sign_pos y Hy). rewrite (round53_zero x Hx). lra.
  - rewrite (round53_zero x Hx), (round53_zero y Hy). lra.
Qed.

(** The relative error of one rounding is at most [2^-53]. *)
Lemma round53_err x : Qabs (round53 x - x) <= Qabs x * (1 # 9007199254740992).
Proof.
  destruct (Q_dec x 0) as [[Hx | Hx] | Hx].
  - rewrite (round53_neg x Hx). rewrite (Qabs_neg x) by lra.
    pose proof (round_pos_err (- x)) as E.
    assert (G : - round_pos (- x) - x == - (round_pos (- x) - - x)) by ring.
    rewrite G, Qabs_opp. apply E. lra.
  - rewrite (round53_pos x Hx). rewrite (Qabs_pos x) by lra. apply round_pos_err, Hx.
  - rewrite (round53_zero x Hx), Hx. discriminate.
Qed.

(** Dyadic numbers with a significand of at most 53 bits are not changed. *)
Lemma round53_dyadic (z k : Z) :
  (Z.abs z <= 9007199254740992)%Z ->
  round53 (inject_Z z * two_pow k) == inject_Z z * two_pow k.
Proof.
  intros Hz. pose proof (two_pow_pos k) as Hk.
  assert (P : forall w j, (0 < w <= 9007199254740992)%Z ->
              round_pos (inject_Z w * two_pow j) == inject_Z w * two_pow j).
  { intros w j Hw. destruct (Z.eq_dec w 9007199254740992) as [-> | Hne].
    - assert (E1 : inject_Z 9007199254740992 * two_pow j == inject_Z 1 * two_pow (53 + j)).
      { rewrite two_pow_add, two_pow_53.
        change (inject_Z 9007199254740992) with 9007199254740992.
        change (inject_Z 1) with 1. ring. }
      assert (P0 : 0 < inject_Z 9007199254740992 * two_pow j).
      { pose proof (two_pow_pos j).
        change (inject_Z 9007199254740992) with 9007199254740992. lra. }
      rewrite (round_pos_comp _ _ P0 E1).
      rewrite E1. apply round_pos_dyadic. lia.
    - apply round_pos_dyadic. lia. }
  destruct (Z.lt_trichotomy z 0) as [C | [C | C]].
  - assert (Hq : inject_Z z < 0) by (change 0 with (inject_Z 0); rewrite <- Zlt_Qlt; exact C).
    rewrite round53_neg by nra.
    rewrite (round_pos_comp _ (inject_Z (- z) * two_pow k)).
    + rewrite P by lia. rewrite inject_Z_opp. ring.
    + nra.
    + rewrite inject_Z_opp. ring.
  - subst z. rewrite round53_zero; [|ring]. ring.
  - assert (Hq : 0 < inject_Z z) by (change 0 with (inject_Z 0); rewrite <- Zlt_Qlt; exact C).
    rewrite round53_pos by nra. apply P. lia.
Qed.

(** Integers up to [2^53] in magnitude are binary64 values. *)
Lemma round53_Z z :
  (Z.abs z <= 9007199254740992)%Z -> round53 (inject_Z z) = inject_Z z.
Proof.
  intros Hz.
  assert (E : round53 (inject_Z z) == inject_Z z).
  { rewrite (round53_comp _ (inject_Z z * two_pow 0)).
    - rewrite round53_dyadic by exact Hz. unfold two_pow. simpl. ring.
    - unfold two_pow. simpl. ring. }
  apply Qred_complete in E.
  assert (R : Qred (round53 (inject_Z z)) = round53 (inject_Z z)).
  { unfold round53. destruct (Qcompare (inject_Z z) 0); [reflexivity | |]; apply Qred_complete, Qred_correct. }
  rewrite R in E. rewrite E. apply Qcanon.Qred_identity. simpl. apply Z.gcd_1_r.
Qed.

End Rounding.

(** ** Integers as numbers *)

Lemma Qfloor_unique (x : Q) (k : Z) :
  inject_Z k <= x -> x < inject_Z (k + 1) -> Qfloor x = k.
Proof.
  intros H1 H2. pose proof (Qfloor_le x) as F1. pose proof (Qlt_floor x) as F2.
  assert (A : inject_Z k < inject_Z (Qfloor x + 1)) by lra.
  assert (B : inject_Z (Qfloor x) < inject_Z (k + 1)) by lra.
  rewrite <- Zlt_Qlt in A, B. lia.
Qed.

Lemma int_add a b : safe (a + b) -> (Js.int a + Js.int b)%js = Js.int (a + b).
Proof.
  intros H. unfold Js.int, Js.add. f_equal.
  rewrite (round53_comp _ (inject_Z (a + b))) by (rewrite inject_Z_plus; reflexivity).
  apply round53_Z, H.
Qed.

Lemma int_sub a b : safe (a - b) -> (Js.int a - Js.int b)%js = Js.int (a - b).
Proof.
  intros H. unfold Js.int, Js.sub, Js.add, Js.neg. f_equal.
  rewrite (round53_comp _ (inject_Z (a - b)))
    by (unfold Z.sub; rewrite inject_Z_plus, inject_Z_opp; reflexivity).
  apply round53_Z, H.
Qed.

Lemma int_mul a b : safe (a * b) -> (Js.int a * Js.int b)%js = Js.int (a * b).
Proof.
  intros H. unfold Js.int, Js.mul. f_equal.
  rewrite (round53_comp _ (inject_Z (a * b))) by (rewrite inject_Z_mult; reflexivity).
  apply round53_Z, H.
Qed.

Lemma compare_int a b : Js.compare (Js.int a) (Js.int b) = Some (a ?= b)%Z.
Proof.
  unfold Js.compare, Js.int, Qcompare. simpl. rewrite !Z.mul_1_r. reflexivity.
Qed.

Lemma leb_int a b : (Js.int a <=? Js.int b)%js = (a <=? b)%Z.
Proof.
  unfold Js.leb. rewrite compare_int. unfold Z.leb. destruct (a ?= b)%Z; reflexivity.
Qed.

Lemma ltb_int a b : (Js.int a <? Js.int b)%js = (a <? b)%Z.
Proof.
  unfold Js.ltb. rewrite compare_int. unfold Z.ltb. destruct (a ?= b)%Z; reflexivity.
Qed.

Lemma geb_int a b : (Js.int a >=? Js.int b)%js = (b <=? a)%Z.
Proof. unfold Js.geb. apply leb_int. Qed.

Lemma max_int a b : Math.max (Js.int a) (Js.int b) = Js.int (Z.max a b).
Proof.
  unfold Math.max. rewrite compare_int. unfold Z.max. destruct (a ?= b)%Z; reflexivity.
Qed.

Lemma min_int a b : Math.min (Js.int a) (Js.int b) = Js.int (Z.min a b).
Proof.
  unfold Math.min. rewrite compare_int. unfold Z.min. destruct (a ?= b)%Z; reflexivity.
Qed.

Lemma floor_int a : Math.floor (Js.int a) = Js.int a.
Proof. unfold Math.floor, Js.int. rewrite Qfloor_Z. reflexivity. Qed.

Lemma Qeq_bool_int_0 b : Qeq_bool (inject_Z b) 0 = (b =? 0)%Z.
Proof.
  unfold Qeq_bool, inject_Z. simpl. rewrite Z.mul_1_r.
  reflexivity.
Qed.

(** Division of integers, with a non-zero divisor. *)
Lemma div_int a b :
  b <> 0%Z -> (Js.int a / Js.int b)%js = Fin (round53 (inject_Z a / inject_Z b)).
Proof.
  intros H. unfold Js.div, Js.int. rewrite Qeq_bool_int_0.
  destruct (Z.eqb_spec b 0); [contradiction | reflexivity].
Qed.

Lemma inject_Z_pos z : (0 < z)%Z -> 0 < inject_Z z.
Proof. intros H. change 0 with (inject_Z 0). rewrite <- Zlt_Qlt. exact H. Qed.

Lemma inject_Z_nonneg z : (0 <= z)%Z -> 0 <= inject_Z z.
Proof. intros H. change 0 with (inject_Z 0). rewrite <- Zle_Qle. exact H. Qed.

Lemma round53_upper y : 0 <= y -> round53 y <= y * (1 + (1 # 9007199254740992)).
Proof.
  intros H. pose proof (round53_err y) as E. rewrite (Qabs_pos y H) in E.
  apply Qabs_Qle_condition in E. lra.
Qed.

Lemma round53_nonneg y : 0 <= y -> 0 <= round53 y.
Proof.
  intros H. change 0 with (inject_Z 0). rewrite <- (round53_Z 0) by (simpl; lia).
  apply round53_mono, H.
Qed.

Lemma round53_le_int y (z : Z) : safe z -> y <= inject_Z z -> round53 y <= inject_Z z.
Proof. intros S H. rewrite <- (round53_Z z S). apply round53_mono, H. Qed.

Lemma round53_ge_int y (z : Z) : safe z -> inject_Z z <= y -> inject_Z z <= round53 y.
Proof. intros S H. rewrite <- (round53_Z z S). apply round53_mono, H. Qed.

(** The floor of a rounded quotient: when [y] is [z / den] computed with a
    relative error of at most [2^-52], rounding [y] does not reach the next
    integer. *)
Lemma Qfloor_round53_quot (z den : Z) (y : Q) :
  (0 <= z <= 2 ^ 50)%Z -> (0 < den)%Z ->
  inject_Z z / inject_Z den <= y ->
  y <= inject_Z z / inject_Z den * (1 + (1 # 4503599627370496)) ->
  Qfloor (round53 y) = (z / den)%Z.
Proof.
  intros Hz Hden Hlo Hhi.
  pose proof (Z.div_mod z den ltac:(lia)) as DM.
  pose proof (Z.mod_pos_bound z den Hden) as MB.
  set (k := (z / den)%Z) in *.
  assert (Hk : (0 <= k <= 2 ^ 50)%Z).
  { split; [apply Z.div_pos; lia|]. unfold k.
    apply Z.le_trans with z; [|lia]. apply Z.div_le_upper_bound; [lia|]. nia. }
  assert (Sk : safe k) by (unfold safe; change (2 ^ 50)%Z with 1125899906842624%Z in Hk; lia).
  pose proof (inject_Z_pos den Hden) as Dpos.
  set (i := / inject_Z den).
  assert (Ipos : 0 < i) by (apply Qinv_lt_0_compat; exact Dpos).
  assert (Iden : i * inject_Z den == 1) by (unfold i; field; lra).
  assert (U : inject_Z z / inject_Z den == inject_Z z * i) by reflexivity.
  rewrite U in Hlo, Hhi.
  assert (Zq : 0 <= inject_Z z <= 1125899906842624).
  { split; [apply inject_Z_nonneg; lia|].
    change 1125899906842624 with (inject_Z (2 ^ 50)). rewrite <- Zle_Qle. lia. }
  assert (K1 : inject_Z k * inject_Z den <= inject_Z z).
  { rewrite <- inject_Z_mult, <- Zle_Qle. nia. }
  assert (K2 : inject_Z z + 1 <= (inject_Z k + 1) * inject_Z den).
  { change 1 with (inject_Z 1). rewrite <- !inject_Z_plus, <- inject_Z_mult, <- Zle_Qle. nia. }
  assert (L : inject_Z k <= inject_Z z * i) by nra.
  assert (R : (inject_Z z + 1) * i <= inject_Z k + 1) by nra.
  apply Qfloor_unique.
  - apply round53_ge_int; [exact Sk | lra].
  - rewrite inject_Z_plus. change (inject_Z 1) with 1.
    apply Qle_lt_trans with (y * (1 + (1 # 9007199254740992))).
    + apply round53_upper. nra.
    + apply Qlt_le_trans with ((inject_Z z + 1) * i); [|exact R]. nra.
Qed.

(** ** Rounding next to an integer *)




(** ** [round53] and the binary64 floats of the kernel

    On these inputs the quotient and the product computed by the kernel's
    IEEE-754 binary64 operations are the values [round53] gives: the
    products [m * (a / b)] of the ramp-up profile for ramps of up to 50
    ticks, and the products by the literals 0.1, 0.2, 0.95 and 0.99.  In
    binary64 too, [22 * (15 / 22)] lies in [[14, 15)]. *)
Lemma round53_matches_binary64 :
  forallb (fun b => forallb (fun a => forallb (fun m => agree_mul_div m a b)
                                        [22; 98; 100]%Z)
                              (zrange 1 50)) (zrange 1 50) = true
  /\ forallb (fun n => agree_mul_lit n 1 10 && agree_mul_lit n 2 10
                       && agree_mul_lit n 95 100 && agree_mul_lit n 99 100)
             (zrange 0 121) = true
  /\ PrimFloat.ltb (PrimFloat.mul (float_of_Z 22)
                      (PrimFloat.div (float_of_Z 15) (float_of_Z 22)))
                   (float_of_Z 15) = true
  /\ PrimFloat.leb (float_of_Z 14)
                   (PrimFloat.mul (float_of_Z 22)
                      (PrimFloat.div (float_of_Z 15) (float_of_Z 22))) = true.
Proof.
  split; [vm_compute; reflexivity|].
  split; [vm_compute; reflexivity|].
  split; vm_compute; reflexivity.
Qed.

(** ** The profiles *)

Lemma small_safe z : (0 <= z <= 2 ^ 50)%Z -> safe z.
Proof. unfold safe. change (2 ^ 50)%Z with 1125899906842624%Z. lia. Qed.

(** Exact division of an integer by a power of two. *)
Lemma div_int_pow2 (a : Z) (k : Z) (p : Z) :
  safe a -> (0 <= k)%Z -> p = (2 ^ k)%Z ->
  exists q, (Js.int a / Js.int p)%js = Fin q /\ q == inject_Z a / inject_Z p.
Proof.
  intros Sa Hk ->. assert (P : (0 < 2 ^ k)%Z) by (apply Z.pow_pos_nonneg; lia).
  rewrite div_int by lia. eexists. split; [reflexivity|].
  assert (E : two_pow (- k) == / inject_Z (2 ^ k)).
  { unfold two_pow. rewrite Qpower_opp, (Zpower_Qpower 2 k Hk). reflexivity. }
  rewrite (round53_comp _ (inject_Z a * two_pow (- k))).
  - rewrite round53_dyadic by exact Sa. rewrite E. reflexivity.
  - rewrite E. reflexivity.
Qed.

Lemma floor_Fin q q' : q == q' -> Math.floor (Fin q) = Js.int (Qfloor q').
Proof. intros E. unfold Math.floor, Js.int. rewrite (Qfloor_comp _ _ E). reflexivity. Qed.

(** [Math.floor(d * c)] for a literal [c] that approximates [1 / den] from
    above. *)
Lemma floor_mul_lit (d den : Z) (c : Q) :
  (0 <= d <= 2 ^ 50)%Z -> (0 < den)%Z ->
  1 / inject_Z den <= round53 c ->
  round53 c <= 1 / inject_Z den * (1 + (1 # 9007199254740992)) ->
  Math.floor (Js.int d * Js.lit c)%js = Js.int (d / den).
Proof.
  intros Hd Hden Hlo Hhi. unfold Js.mul, Js.int, Js.lit, Math.floor. f_equal. f_equal.
  pose proof (inject_Z_nonneg d ltac:(lia)) as Dq.
  pose proof (inject_Z_pos den Hden) as Dpos.
  assert (Ipos : 0 < / inject_Z den) by (apply Qinv_lt_0_compat; exact Dpos).
  unfold Qdiv in *. rewrite Qmult_1_l in Hlo, Hhi.
  apply Qfloor_round53_quot; try assumption; unfold Qdiv; nra.
Qed.

(** The table has an entry for every profile identifier. *)
Lemma activeProfile_found (p : TestProfile) :
  exists cfg, activeProfile p = Some cfg /\ id cfg = p.
Proof. destruct p; eexists; split; reflexivity. Qed.

(** C7. For integer inputs up to 2^50 the spike profile returns
    [maxUsers] when [mid - 1 <= t < mid - 1 + spikeWindow], with
    [mid = floor(duration / 2)] and
    [spikeWindow = max(3, floor(duration * 0.2))], and the baseline
    [max(1, floor(maxUsers * 0.1))] otherwise. *)
Theorem spike_getUsers_window (t d m : Z) (r : number) :
  (0 <= t <= 2 ^ 50)%Z -> (0 <= d <= 2 ^ 50)%Z -> (0 <= m <= 2 ^ 50)%Z ->
  spike_getUsers (Js.int t) (Js.int d) (Js.int m) r = Js.int (Spec.spike t d m).
Proof.
  intros Ht Hd Hm. unfold spike_getUsers, Spec.spike.
  destruct (div_int_pow2 d 1 2 (small_safe d Hd) ltac:(lia) eq_refl) as (q & -> & Eq).
  rewrite (floor_Fin q _ Eq). change (inject_Z 2) with 2.
  set (mid := Qfloor (inject_Z d / 2)).
  assert (Hmid : (0 <= mid <= 2 ^ 50)%Z).
  { unfold mid. change 2 with (inject_Z 2). rewrite <- Zdiv_Qdiv.
    split; [apply Z.div_pos; lia|]. apply Z.le_trans with d; [|lia].
    apply Z.div_le_upper_bound; lia. }
  rewrite (floor_mul_lit d 5 (2 # 10) Hd ltac:(lia))
    by (vm_compute; intros; discriminate).
  rewrite (floor_mul_lit m 10 (1 # 10) Hm ltac:(lia))
    by (vm_compute; intros; discriminate).
  assert (E5 : (d / 5)%Z = Qfloor (inject_Z d * (2 # 10))).
  { rewrite Zdiv_Qdiv. apply Qfloor_comp. change (inject_Z 5) with 5. field. }
  assert (E10 : (m / 10)%Z = Qfloor (inject_Z m * (1 # 10))).
  { rewrite Zdiv_Qdiv. apply Qfloor_comp. change (inject_Z 10) with 10. field. }
  rewrite <- E5, <- E10.
  assert (H5 : (0 <= d / 5 <= 2 ^ 50)%Z).
  { split; [apply Z.div_pos; lia|]. apply Z.le_trans with d; [|lia].
    apply Z.div_le_upper_bound; lia. }
  change (2 ^ 50)%Z with 1125899906842624%Z in *.
  rewrite !max_int.
  rewrite int_sub by (unfold safe; lia).
  rewrite int_add by (unfold safe; lia).
  rewrite geb_int, ltb_int.
  destruct ((mid - 1 <=? t)%Z && (t <? mid - 1 + Z.max 3 (d / 5))%Z); reflexivity.
Qed.

Lemma spike_getUsers_window_witness :
  spike_getUsers (Js.int 14) (Js.int 30) (Js.int 40) (Js.int 0) = Js.int 40
  /\ spike_getUsers (Js.int 20) (Js.int 30) (Js.int 40) (Js.int 0) = Js.int 4.
Proof.
  split.
  - apply (spike_getUsers_window 14 30 40 (Js.int 0)); simpl; lia.
  - apply (spike_getUsers_window 20 30 40 (Js.int 0)); simpl; lia.
Defined.

Lemma floor_div_int (a b : Z) :
  (0 <= a <= 2 ^ 50)%Z -> (0 < b)%Z ->
  Math.floor (Js.int a / Js.int b)%js = Js.int (Qfloor (inject_Z a / inject_Z b)).
Proof.
  intros Ha Hb. rewrite div_int by lia. unfold Math.floor, Js.int. do 2 f_equal.
  rewrite <- Zdiv_Qdiv.
  pose proof (inject_Z_nonneg a ltac:(lia)). pose proof (inject_Z_pos b Hb).
  assert (0 < / inject_Z b) by (apply Qinv_lt_0_compat; assumption).
  apply Qfloor_round53_quot; try assumption; unfold Qdiv; nra.
Qed.

(** C6 (amended). On a run of at least four ticks, and for integer inputs up
    to 2^50, the stress profile returns
    [max(1, floor(maxUsers * (s + 1) / 4))] with
    [s = min(3, floor(t / floor(duration / 4)))]. *)
Theorem stress_getUsers_by_stage (t d m : Z) (r : number) :
  (0 <= t <= 2 ^ 50)%Z -> (4 <= d <= 2 ^ 50)%Z -> (0 <= m <= 2 ^ 50)%Z ->
  stress_getUsers (Js.int t) (Js.int d) (Js.int m) r = Js.int (Spec.stress t d m).
Proof.
  intros Ht Hd Hm. unfold stress_getUsers, Spec.stress.
  destruct (div_int_pow2 d 2 4 (small_safe d ltac:(lia)) ltac:(lia) eq_refl) as (q & -> & Eq).
  rewrite (floor_Fin q _ Eq). change (inject_Z 4) with 4.
  set (stageLen := Qfloor (inject_Z d / 4)).
  assert (Hs : (1 <= stageLen)%Z).
  { unfold stageLen. change 4 with (inject_Z 4). rewrite <- Zdiv_Qdiv.
    apply Z.div_le_lower_bound; lia. }
  rewrite int_sub by (unfold safe; simpl; lia). change (4 - 1)%Z with 3%Z.
  rewrite floor_div_int by lia.
  rewrite min_int.
  set (s := Z.min 3 (Qfloor (inject_Z t / inject_Z stageLen))).
  assert (Hst : (0 <= s <= 3)%Z).
  { unfold s. rewrite <- Zdiv_Qdiv. pose proof (Z.div_pos t stageLen). lia. }
  rewrite int_add by (unfold safe; lia).
  destruct (div_int_pow2 (s + 1) 2 4 ltac:(unfold safe; lia) ltac:(lia) eq_refl)
    as (q' & -> & Eq').
  change (inject_Z 4) with 4 in Eq'.
  assert (E : round53 (inject_Z m * q') == inject_Z m * (inject_Z (s + 1) / 4)).
  { rewrite (round53_comp _ (inject_Z (m * (s + 1)) * two_pow (-2))).
    - rewrite round53_dyadic.
      + rewrite inject_Z_mult. unfold two_pow. simpl. field.
      + change (2 ^ 50)%Z with 1125899906842624%Z in Hm. nia.
    - rewrite Eq', inject_Z_mult. unfold two_pow. simpl. field. }
  unfold Js.mul at 1. unfold Js.int at 2.
  rewrite (floor_Fin _ _ E). apply max_int.
Qed.


(** With [duration = 40] and [maxUsers = 40]: 10, 20, 30 and 40 users in the
    four stages. *)
Lemma stress_getUsers_by_stage_witness :
  stress_getUsers (Js.int 9) (Js.int 40) (Js.int 40) (Js.int 0) = Js.int 10
  /\ stress_getUsers (Js.int 10) (Js.int 40) (Js.int 40) (Js.int 0) = Js.int 20
  /\ stress_getUsers (Js.int 29) (Js.int 40) (Js.int 40) (Js.int 0) = Js.int 30
  /\ stress_getUsers (Js.int 39) (Js.int 40) (Js.int 40) (Js.int 0) = Js.int 40.
Proof.
  split; [|split; [|split]].
  - apply (stress_getUsers_by_stage 9 40 40 (Js.int 0)); simpl; lia.
  - apply (stress_getUsers_by_stage 10 40 40 (Js.int 0)); simpl; lia.
  - apply (stress_getUsers_by_stage 29 40 40 (Js.int 0)); simpl; lia.
  - apply (stress_getUsers_by_stage 39 40 40 (Js.int 0)); simpl; lia.
Defined.

(** C6 as stated: on a run of three ticks the stage length is zero, and at
    tick 0 the source divides zero by zero; the result is NaN and no
    integer. *)
Lemma stress_getUsers_short_run :
  stress_getUsers (Js.int 0) (Js.int 3) (Js.int 40) (Js.int 0) = NaN
  /\ stress_getUsers (Js.int 0) (Js.int 3) (Js.int 40) (Js.int 0)
     <> Js.int (Spec.stress 0 3 40).
Proof.
  assert (E : stress_getUsers (Js.int 0) (Js.int 3) (Js.int 40) (Js.int 0) = NaN)
    by (vm_compute; reflexivity).
  split; [exact E | rewrite E; discriminate].
Qed.

(** The forty ticks of a run to 40 users: ten users more in each stage. *)
Lemma stress_getUsers_40_40 :
  map (fun t => stress_getUsers (Js.int t) (Js.int 40) (Js.int 40) (Js.int 0))
      (zrange 0 40)
  = map (fun t => Js.int (10 * (t / 10 + 1))) (zrange 0 40).
Proof. vm_compute. reflexivity. Qed.

Lemma round53_lower y : 0 <= y -> y * (1 - (1 # 9007199254740992)) <= round53 y.
Proof.
  intros H. pose proof (round53_err y) as E. rewrite (Qabs_pos y H) in E.
  apply Qabs_Qle_condition in E. lra.
Qed.

(** Once the ramp is over the profile returns the maximum. *)
Lemma rampup_getUsers_saturated (t m r : Z) (d : number) :
  (0 <= t <= 2 ^ 50)%Z -> (1 <= m <= 2 ^ 50)%Z -> (r <= t + 1)%Z ->
  rampup_getUsers (Js.int t) d (Js.int m) (Js.int r) = Js.int m
  /\ Spec.rampup t m r = m.
Proof.
  intros Ht Hm Hr. change (2 ^ 50)%Z with 1125899906842624%Z in *.
  unfold rampup_getUsers, Spec.rampup. rewrite leb_int.
  destruct (Z.leb_spec r 0) as [R0 | R0]; [split; reflexivity|].
  pose proof (inject_Z_pos r R0) as Rq.
  assert (U : 1 <= inject_Z (t + 1) / inject_Z r).
  { apply Qle_shift_div_l; [exact Rq|]. rewrite Qmult_1_l, <- Zle_Qle. exact Hr. }
  split.
  - rewrite int_add by (unfold safe; lia). rewrite div_int by lia.
    assert (X : 1 <= round53 (inject_Z (t + 1) / inject_Z r))
      by (apply (round53_ge_int _ 1); [unfold safe; simpl; lia | exact U]).
    assert (M1 : Math.min (Js.int 1) (Fin (round53 (inject_Z (t + 1) / inject_Z r))) = Js.int 1).
    { unfold Math.min, Js.compare, Js.int. change (inject_Z 1) with 1.
      destruct (Qcompare_spec 1 (round53 (inject_Z (t + 1) / inject_Z r))); [reflexivity.. | lra]. }
    rewrite M1, int_mul by (unfold safe; lia). rewrite Z.mul_1_r, floor_int, max_int.
    f_equal. lia.
  - rewrite (Q.min_l _ _ U).
    assert (E : inject_Z m * 1 == inject_Z m) by ring.
    rewrite (Qfloor_comp _ _ E), Qfloor_Z. lia.
Qed.

(** X3. While the ramp lasts, the two roundings can lose one user with respect
    to the exact formula, and no more. *)
Lemma rampup_getUsers_within_one (t m r : Z) (d : number) :
  (0 <= t <= 2 ^ 50)%Z -> (1 <= m <= 2 ^ 25)%Z -> (r <= 2 ^ 25)%Z ->
  exists k, rampup_getUsers (Js.int t) d (Js.int m) (Js.int r) = Js.int k
            /\ (Spec.rampup t m r - 1 <= k <= Spec.rampup t m r)%Z.
Proof.
  intros Ht Hm Hr.
  destruct (Z.le_gt_cases r (t + 1)) as [C | C].
  { destruct (rampup_getUsers_saturated t m r d Ht ltac:(change (2^25)%Z with 33554432%Z in Hm; change (2^50)%Z with 1125899906842624%Z; lia) C) as [-> ->].
    exists m. split; [reflexivity | lia]. }
  change (2 ^ 50)%Z with 1125899906842624%Z in *. change (2 ^ 25)%Z with 33554432%Z in *.
  unfold rampup_getUsers, Spec.rampup. rewrite leb_int.
  destruct (Z.leb_spec r 0) as [R0 | R0]; [lia|].
  pose proof (inject_Z_pos r R0) as Rq. pose proof (inject_Z_pos m ltac:(lia)) as Mq.
  pose proof (inject_Z_pos (t + 1) ltac:(lia)) as Tq.
  assert (Rle : inject_Z r <= 33554432).
  { change 33554432 with (inject_Z 33554432). rewrite <- Zle_Qle. lia. }
  assert (Mle : inject_Z m <= 33554432).
  { change 33554432 with (inject_Z 33554432). rewrite <- Zle_Qle. lia. }
  set (u := inject_Z (t + 1) / inject_Z r).
  assert (Ur : u * inject_Z r == inject_Z (t + 1)) by (unfold u; field; lra).
  assert (U0 : 0 < u) by (unfold u; apply Qlt_shift_div_l; [exact Rq | lra]).
  assert (U1 : u * inject_Z r + 1 <= inject_Z r).
  { rewrite Ur. change 1 with (inject_Z 1). rewrite <- inject_Z_plus, <- Zle_Qle. lia. }
  assert (Ult : u < 1) by nra.
  assert (EQ : Qfloor (inject_Z m * Qmin 1 u) = Qfloor (inject_Z m * u)).
  { apply Qfloor_comp. rewrite (Q.min_r 1 u) by lra. reflexivity. }
  rewrite EQ. clear EQ.
  rewrite int_add by (unfold safe; lia). rewrite div_int by lia. fold u.
  pose proof (round53_upper u ltac:(lra)) as X1.
  pose proof (round53_lower u ltac:(lra)) as X2.
  set (x := round53 u) in *.
  assert (X3 : x <= 1) by (apply (round53_le_int _ 1); [unfold safe; simpl; lia | change (inject_Z 1) with 1; lra]).
  assert (Hy : exists y, Math.min (Js.int 1) (Fin x) = Fin y /\ y == x).
  { unfold Math.min, Js.compare, Js.int. change (inject_Z 1) with 1.
    destruct (Qcompare_spec 1 x) as [E | E | E].
    - exists 1. split; [reflexivity | exact E].
    - lra.
    - exists x. split; reflexivity. }
  destruct Hy as (y & -> & Ey).
  unfold Js.mul at 1. unfold Js.int at 2. unfold Math.floor.
  fold (Js.int (Qfloor (round53 (inject_Z m * y)))). rewrite max_int.
  eexists. split; [reflexivity|].
  assert (P0 : 0 <= inject_Z m * y) by nra.
  pose proof (round53_upper _ P0) as V1. pose proof (round53_lower _ P0) as V2.
  set (v := round53 (inject_Z m * y)) in *.
  set (E := inject_Z m * u).
  pose proof (Qfloor_le E) as F1. pose proof (Qlt_floor E) as F2.
  rewrite inject_Z_plus in F2. change (inject_Z 1) with 1 in F2.
  set (K := Qfloor E) in *.
  assert (EK : E * inject_Z r + 1 <= (inject_Z K + 1) * inject_Z r).
  { assert (Z1 : (m * (t + 1) < (K + 1) * r)%Z).
    { rewrite Zlt_Qlt, !inject_Z_mult, (inject_Z_plus K 1). change (inject_Z 1) with 1.
      rewrite <- Ur. unfold E in F2. nra. }
    assert (Z2 : (m * (t + 1) + 1 <= (K + 1) * r)%Z) by lia.
    rewrite Zle_Qle, (inject_Z_plus (m * (t + 1)) 1), !inject_Z_mult, (inject_Z_plus K 1) in Z2.
    change (inject_Z 1) with 1 in Z2. rewrite <- Ur in Z2. unfold E. nra. }
  assert (Ele : E <= 33554432) by (unfold E; nra).
  assert (E0 : 0 <= E) by (unfold E; nra).
  assert (B1 : inject_Z m * y <= E * (1 + (1 # 9007199254740992))) by (unfold E; nra).
  assert (B2 : E * (1 - (1 # 9007199254740992)) <= inject_Z m * y) by (unfold E; nra).
  assert (D1 : v <= E + (1 # 100000000)) by lra.
  assert (D2 : E - (1 # 100000000) <= v) by lra.
  assert (Vlo : inject_Z (K - 1) <= v).
  { replace (K - 1)%Z with (K + -1)%Z by lia. rewrite inject_Z_plus.
    change (inject_Z (-1)) with (- (1)). lra. }
  assert (Vhi : v < inject_Z (K + 1)).
  { rewrite inject_Z_plus. change (inject_Z 1) with 1.
    assert (T : v * inject_Z r < (inject_Z K + 1) * inject_Z r); [|nra].
    apply Qlt_le_trans with (E * inject_Z r + 1); [|exact EK]. nra. }
  assert (G1 : (K - 1 <= Qfloor v)%Z).
  { rewrite <- (Qfloor_Z (K - 1)). apply Qfloor_resp_le. exact Vlo. }
  assert (G2 : (Qfloor v < K + 1)%Z).
  { rewrite Zlt_Qlt. apply Qle_lt_trans with v; [apply Qfloor_le | exact Vhi]. }
  lia.
Qed.


(** C5. At tick 14 of a 22 tick ramp to 22 users the source computes
    [22 * (15 / 22)] as 14.999999999999998 and returns 14 users, where the
    formula of the specification, [max(1, floor(22 * min(1, 15/22)))], is 15.
    The values the claim lists for [maxUsers = 100], [rampUp = 5] are the
    ones returned. *)
Theorem rampup_getUsers_loses_a_user :
  rampup_getUsers (Js.int 14) (Js.int 45) (Js.int 22) (Js.int 22) = Js.int 14
  /\ Spec.rampup 14 22 22 = 15%Z
  /\ rampup_getUsers (Js.int 0) (Js.int 45) (Js.int 100) (Js.int 5) = Js.int 20
  /\ rampup_getUsers (Js.int 4) (Js.int 45) (Js.int 100) (Js.int 5) = Js.int 100
  /\ rampup_getUsers (Js.int 10) (Js.int 45) (Js.int 100) (Js.int 5) = Js.int 100.
Proof.
  split; [vm_compute; reflexivity|].
  split; [vm_compute; reflexivity|].
  split; [vm_compute; reflexivity|].
  split; vm_compute; reflexivity.
Qed.

(** Without a ramp the profile is the fixed one. *)
Lemma rampup_getUsers_no_ramp (t d m : number) (r : Z) :
  (r <= 0)%Z -> rampup_getUsers t d m (Js.int r) = m.
Proof.
  intros Hr. unfold rampup_getUsers. rewrite leb_int.
  destruct (Z.leb_spec r 0); [reflexivity | lia].
Qed.

(** ** Every profile stays within [[1, maxUsers]] *)

(** [Math.floor(max * c)] for a fraction [c] of the maximum. *)
Lemma floor_mul_fraction (m : Z) (c : Q) :
  (0 <= m)%Z -> safe m -> 0 <= c <= 1 ->
  exists k, Math.floor (Js.int m * Fin c)%js = Js.int k /\ (0 <= k <= m)%Z.
Proof.
  intros Hm Sm Hc. pose proof (inject_Z_nonneg m Hm) as Mq.
  unfold Js.mul, Js.int, Math.floor. eexists. split; [reflexivity|].
  assert (L : 0 <= round53 (inject_Z m * c)) by (apply round53_nonneg; nra).
  assert (U : round53 (inject_Z m * c) <= inject_Z m)
    by (apply round53_le_int; [exact Sm | nra]).
  apply Qfloor_resp_le in L, U. rewrite Qfloor_Z in U.
  change (Qfloor 0) with 0%Z in L. lia.
Qed.

Lemma max_1_range (k m : Z) :
  (1 <= m)%Z -> (0 <= k <= m)%Z ->
  exists k', Math.max (Js.int 1) (Js.int k) = Js.int k' /\ (1 <= k' <= m)%Z.
Proof. intros Hm Hk. rewrite max_int. eexists. split; [reflexivity | lia]. Qed.

Lemma rampup_getUsers_range (t m r : Z) (d : number) :
  (0 <= t)%Z -> safe (t + 1) -> (1 <= m)%Z -> safe m -> safe r ->
  exists k, rampup_getUsers (Js.int t) d (Js.int m) (Js.int r) = Js.int k
            /\ (1 <= k <= m)%Z.
Proof.
  intros Ht St Hm Sm Sr. unfold rampup_getUsers. rewrite leb_int.
  destruct (Z.leb_spec r 0) as [Hr | Hr].
  - exists m. split; [reflexivity | lia].
  - rewrite int_add by exact St. rewrite div_int by lia.
    set (x := round53 (inject_Z (t + 1) / inject_Z r)).
    assert (Hx : 0 <= x).
    { apply round53_nonneg. pose proof (inject_Z_pos (t + 1) ltac:(lia)).
      pose proof (inject_Z_pos r Hr).
      assert (0 < / inject_Z r) by (apply Qinv_lt_0_compat; assumption).
      unfold Qdiv. nra. }
    assert (Hy : exists y, Math.min (Js.int 1) (Fin x) = Fin y /\ 0 <= y <= 1).
    { unfold Math.min, Js.compare, Js.int. change (inject_Z 1) with 1.
      destruct (Qcompare_spec 1 x) as [E | E | E].
      - exists 1. split; [reflexivity | lra].
      - exists 1. split; [reflexivity | lra].
      - exists x. split; [reflexivity | lra]. }
    destruct Hy as (y & -> & Hy).
    destruct (floor_mul_fraction m y ltac:(lia) Sm Hy) as (k & -> & Hk).
    apply max_1_range; assumption.
Qed.

(** The spike profile, whatever the tick and the duration are. *)
Lemma spike_getUsers_range (m : Z) (t d r : number) :
  (1 <= m)%Z -> safe m ->
  exists k, spike_getUsers t d (Js.int m) r = Js.int k /\ (1 <= k <= m)%Z.
Proof.
  intros Hm Sm. unfold spike_getUsers.
  destruct (_ && _).
  - exists m. split; [reflexivity | lia].
  - destruct (floor_mul_fraction m (round53 (1 # 10)) ltac:(lia) Sm
                ltac:(split; vm_compute; intros; discriminate)) as (k & E & Hk).
    unfold Js.lit. rewrite E. apply max_1_range; assumption.
Qed.

Lemma stress_getUsers_range (t d m : Z) (r : number) :
  (0 <= t)%Z -> safe t -> (4 <= d)%Z -> safe d -> (1 <= m)%Z -> safe m ->
  exists k, stress_getUsers (Js.int t) (Js.int d) (Js.int m) r = Js.int k
            /\ (1 <= k <= m)%Z.
Proof.
  intros Ht St Hd Sd Hm Sm. unfold stress_getUsers.
  destruct (div_int_pow2 d 2 4 Sd ltac:(lia) eq_refl) as (q & -> & Eq).
  rewrite (floor_Fin q _ Eq). change (inject_Z 4) with 4.
  set (stageLen := Qfloor (inject_Z d / 4)).
  assert (Hs : (1 <= stageLen)%Z).
  { unfold stageLen. change 4 with (inject_Z 4). rewrite <- Zdiv_Qdiv.
    apply Z.div_le_lower_bound; lia. }
  rewrite int_sub by (unfold safe; simpl; lia). change (4 - 1)%Z with 3%Z.
  rewrite div_int by lia.
  assert (Hj : (0 <= Qfloor (round53 (inject_Z t / inject_Z stageLen)))%Z).
  { change 0%Z with (Qfloor 0). apply Qfloor_resp_le, round53_nonneg.
    pose proof (inject_Z_nonneg t Ht). pose proof (inject_Z_pos stageLen ltac:(lia)).
    assert (0 < / inject_Z stageLen) by (apply Qinv_lt_0_compat; assumption).
    unfold Qdiv. nra. }
  unfold Math.floor at 2.
  fold (Js.int (Qfloor (round53 (inject_Z t / inject_Z stageLen)))).
  rewrite min_int.
  set (s := Z.min 3 (Qfloor (round53 (inject_Z t / inject_Z stageLen)))).
  assert (Hst : (0 <= s <= 3)%Z) by (unfold s; lia).
  rewrite int_add by (unfold safe; lia).
  destruct (div_int_pow2 (s + 1) 2 4 ltac:(unfold safe; lia) ltac:(lia) eq_refl)
    as (q' & -> & Eq').
  change (inject_Z 4) with 4 in Eq'.
  assert (Hc : 0 <= q' <= 1).
  { assert (A : 1 <= inject_Z (s + 1) <= 4).
    { split; [change 1 with (inject_Z 1) | change 4 with (inject_Z 4)];
        rewrite <- Zle_Qle; lia. }
    rewrite Eq'. unfold Qdiv. change (/ 4) with (1 # 4). lra. }
  destruct (floor_mul_fraction m q' ltac:(lia) Sm Hc) as (k & -> & Hk).
  apply max_1_range; assumption.
Qed.




(** C8. The custom profile returns, for every four inputs, the value the
    ramp-up profile returns. *)
Theorem custom_profile_is_rampup (t d m r : number) :
  profileUsers custom t d m r = profileUsers rampup t d m r.
Proof. reflexivity. Qed.

(** ** Request options *)

Local Open Scope string_scope.

(** C10. With an empty token the bearer, basic and api-key settings (and any
    other authentication kind) produce the options and the header object
    that authentication kind [none] produces. *)
Theorem empty_token_adds_no_auth_header
    (btoa : string -> string) (st : LoadTestingState) (kind : string) :
  materialize btoa (with_auth st kind "") = materialize btoa (with_auth st "none" "").
Proof.
  unfold materialize, buildFetchOptions, with_auth.
  cbn [authType authToken method headers bodyType bodyContent].
  change (truthy "") with false. rewrite !andb_false_r. reflexivity.
Qed.

(** C2. A POST request with a JSON body, no header row filled in and no
    authentication: the body text is passed through, and
    [Content-Type: application/json] is written to the header object, but
    after [opts.headers] was left unset because that object was still
    empty; the options handed to [fetch] carry no header at all. *)
Theorem json_body_alone_sends_no_content_type (btoa : string -> string) :
  let res := materialize btoa bareJsonPost in
  RequestInit.body (fst res) = Some (BodyText "{}") /\
  RequestInit.headers (fst res) = None /\
  sentHeaders res = None /\
  snd res = [[("Content-Type", "application/json")]].
Proof. repeat split. Qed.

Lemma bind_eq {A B} (m : State A) (f : A -> State B) (hp : Heap) (a : A) (hp' : Heap) :
  m hp = (a, hp') -> bind m f hp = f a hp'.
Proof. intros E. unfold bind. rewrite E. reflexivity. Qed.

Lemma forEach_set_prop {A} (l : list A) (k v : A -> string) (o : Obj) :
  forEach l (fun p => set_prop 0%nat (k p) (v p)) [o]
  = (tt, [fold_left (fun o p => obj_set o (k p) (v p)) l o]).
Proof.
  revert o. induction l as [|a l IH]; intros o; [reflexivity|].
  cbn [forEach fold_left]. erewrite bind_eq by reflexivity. apply IH.
Qed.

Lemma obj_get_assign o k v : obj_get (obj_assign o k v) k = Some v.
Proof.
  induction o as [|[k' v'] o IH]; simpl.
  - rewrite String.eqb_refl. reflexivity.
  - destruct (String.eqb k' k) eqn:E; simpl; rewrite E; [reflexivity | exact IH].
Qed.

(** What [buildFetchOptions] hands to [fetch] for a JSON body: the body
    text as it is, and the header object only when the header rows and the
    authentication step put a property on it. *)
Lemma json_body_materialized (btoa : string -> string) (st : LoadTestingState) :
  method st <> GET -> method st <> HEAD ->
  bodyType st = "json" -> bodyContent st <> "" ->
  let res := materialize btoa st in
  let h := callerHeaders btoa st in
  RequestInit.body (fst res) = Some (BodyText (bodyContent st)) /\
  sentHeaders res =
    match h with
    | [] => None
    | _ => Some (obj_set h "Content-Type" (contentTypeOr h))
    end.
Proof.
  intros HG HH HT HB. cbv zeta.
  assert (M : negb (HttpMethod_eqb (method st) GET)
              && negb (HttpMethod_eqb (method st) HEAD) = true)
    by (destruct (method st); try reflexivity; contradiction).
  assert (B : truthy (bodyContent st) = true).
  { unfold truthy. destruct (String.eqb_spec (bodyContent st) ""); [contradiction | reflexivity]. }
  unfold materialize, buildFetchOptions.
  erewrite bind_eq by reflexivity.
  erewrite bind_eq by apply forEach_set_prop.
  rewrite (bind_eq _ _ _ tt [callerHeaders btoa st]).
  2:{ unfold callerHeaders.
      destruct (String.eqb (authType st) "bearer" && truthy (authToken st)); [reflexivity|].
      destruct (String.eqb (authType st) "basic" && truthy (authToken st)); [reflexivity|].
      destruct (String.eqb (authType st) "apikey" && truthy (authToken st)); reflexivity. }
  erewrite bind_eq by reflexivity.
  rewrite M, HT, B. cbn [String.eqb Ascii.eqb Bool.eqb andb].
  erewrite bind_eq by reflexivity.
  erewrite bind_eq by reflexivity.
  unfold ret, sentHeaders. cbn [fst snd].
  destruct (callerHeaders btoa st) as [|kv h']; split; reflexivity.
Qed.

(** X11. With at least one header of the caller's, and none of them a content
    type, the JSON body is sent as [application/json]. *)
Lemma json_content_type_default (btoa : string -> string) (st : LoadTestingState) :
  method st <> GET -> method st <> HEAD ->
  bodyType st = "json" -> bodyContent st <> "" ->
  callerHeaders btoa st <> [] ->
  obj_get (callerHeaders btoa st) "Content-Type" = None ->
  exists sent, sentHeaders (materialize btoa st) = Some sent /\
               obj_get sent "Content-Type" = Some "application/json".
Proof.
  intros HG HH HT HB HN HC.
  destruct (json_body_materialized btoa st HG HH HT HB) as [_ E].
  destruct (callerHeaders btoa st) as [|kv h'] eqn:Eh; [contradiction|].
  eexists. split; [exact E|].
  unfold contentTypeOr. rewrite HC. change (obj_set ?o "Content-Type" ?v) with (obj_assign o "Content-Type" v).
  apply obj_get_assign.
Qed.

(** ** Sorting *)

Lemma insert_asc_perm x l : Permutation (insert_asc x l) (x :: l).
Proof.
  induction l as [|y l IH]; simpl; [reflexivity|].
  destruct (x <=? y)%Z; [reflexivity|].
  rewrite IH. apply perm_swap.
Qed.

Lemma sort_asc_perm l : Permutation (sort_asc l) l.
Proof.
  induction l as [|x l IH]; simpl; [constructor|].
  rewrite insert_asc_perm. constructor. exact IH.
Qed.

Lemma sort_asc_length l : List.length (sort_asc l) = List.length l.
Proof. apply Permutation_length, sort_asc_perm. Qed.

Lemma insert_asc_sorted x l :
  StronglySorted Z.le l -> StronglySorted Z.le (insert_asc x l).
Proof.
  induction 1 as [|y l S IH F]; simpl.
  - repeat constructor.
  - destruct (Z.leb_spec x y) as [L | L].
    + constructor; [constructor; assumption|].
      constructor; [exact L|]. eapply Forall_impl; [|exact F]. intros z Hz. simpl in Hz. lia.
    + constructor; [exact IH|].
      apply Permutation_Forall with (x :: l).
      * symmetry. apply insert_asc_perm.
      * constructor; [lia | exact F].
Qed.

Lemma sort_asc_sorted l : StronglySorted Z.le (sort_asc l).
Proof.
  induction l as [|x l IH]; simpl; [constructor | apply insert_asc_sorted, IH].
Qed.

Lemma sorted_last_max l mx :
  StronglySorted Z.le l -> nth_error l (List.length l - 1) = Some mx ->
  Forall (fun x => (x <= mx)%Z) l.
Proof.
  induction 1 as [|y l S IH F]; intros E; [constructor|].
  destruct l as [|z l'].
  - simpl in E. injection E as <-. repeat constructor. lia.
  - assert (E' : nth_error (z :: l') (List.length (z :: l') - 1) = Some mx).
    { simpl in *. rewrite Nat.sub_0_r in *. exact E. }
    specialize (IH E'). constructor; [|exact IH].
    inversion F as [|? ? Hyz _]; subst. inversion IH as [|? ? Hz _]; subst. lia.
Qed.

Lemma sorted_head_min mn l :
  StronglySorted Z.le (mn :: l) -> Forall (fun x => (mn <= x)%Z) (mn :: l).
Proof. intros S. inversion S; subst. constructor; [lia | assumption]. Qed.

(** Two ascending arrangements of the same values are the same list. *)
Lemma sorted_perm_eq l l' :
  StronglySorted Z.le l -> StronglySorted Z.le l' -> Permutation l l' -> l = l'.
Proof.
  revert l'. induction l as [|x l IH]; intros l' S S' P.
  - apply Permutation_nil in P. symmetry. exact P.
  - destruct l' as [|y l'].
    + symmetry in P. apply Permutation_nil in P. discriminate P.
    + inversion S as [|? ? Sl Fx]; subst. inversion S' as [|? ? Sl' Fy]; subst.
      assert (Hxy : x = y).
      { assert (Ix : In x (y :: l')) by (apply (Permutation_in _ P); left; reflexivity).
        assert (Iy : In y (x :: l))
          by (apply (Permutation_in _ (Permutation_sym P)); left; reflexivity).
        rewrite Forall_forall in Fx, Fy.
        destruct Ix as [-> | Ix]; [reflexivity|].
        destruct Iy as [<- | Iy]; [reflexivity|].
        specialize (Fx _ Iy). specialize (Fy _ Ix). lia. }
      subst y. f_equal. apply IH; try assumption.
      apply Permutation_cons_inv with x. exact P.
Qed.

Lemma sort_asc_perm_eq l l' : Permutation l l' -> sort_asc l = sort_asc l'.
Proof.
  intros P. apply sorted_perm_eq; try apply sort_asc_sorted.
  rewrite !sort_asc_perm. exact P.
Qed.

(** ** Sums *)

Lemma sum_abs_nonneg l : (0 <= sum_abs l)%Z.
Proof. induction l; simpl; lia. Qed.

Lemma sum_abs_perm l l' : Permutation l l' -> sum_abs l = sum_abs l'.
Proof. induction 1; simpl; lia. Qed.

Lemma sum_abs_In x l : In x l -> (Z.abs x <= sum_abs l)%Z.
Proof.
  induction l as [|y l IH]; simpl; [contradiction|].
  pose proof (sum_abs_nonneg l) as N. intros [-> | H]; [lia | specialize (IH H); lia].
Qed.

Lemma fold_sum_exact l acc :
  (Z.abs acc + sum_abs l <= 9007199254740992)%Z ->
  fold_left (fun a b => (a + Js.int b)%js) l (Js.int acc) = Js.int (acc + zsum l).
Proof.
  revert acc. induction l as [|x l IH]; intros acc H.
  - simpl. rewrite Z.add_0_r. reflexivity.
  - change (sum_abs (x :: l)) with (Z.abs x + sum_abs l)%Z in H.
    change (zsum (x :: l)) with (x + zsum l)%Z.
    pose proof (sum_abs_nonneg l). cbn [fold_left].
    rewrite int_add by (unfold safe; lia).
    rewrite IH by lia. f_equal. lia.
Qed.

Lemma reduce_sum_exact l :
  (sum_abs l <= 9007199254740992)%Z -> reduce_sum l = Js.int (zsum l).
Proof. intros H. unfold reduce_sum. rewrite fold_sum_exact by (simpl; lia). reflexivity. Qed.

Lemma zsum_bounds l mn mx :
  Forall (fun x => (mn <= x <= mx)%Z) l ->
  (Z.of_nat (List.length l) * mn <= zsum l <= Z.of_nat (List.length l) * mx)%Z.
Proof.
  induction 1 as [|x l Hx F IH]; [simpl; lia|].
  change (zsum (x :: l)) with (x + zsum l)%Z.
  change (List.length (x :: l)) with (S (List.length l)). lia.
Qed.

(** [Math.round] of the mean of integers between [mn] and [mx]. *)
Lemma round_mean_bounds (S n mn mx : Z) :
  (0 < n)%Z -> (n * mn <= S <= n * mx)%Z -> safe mn -> safe mx ->
  exists a, Math.round (Js.int S / Js.int n)%js = Js.int a /\ (mn <= a <= mx)%Z.
Proof.
  intros Hn HS Smn Smx. rewrite div_int by lia. unfold Math.round.
  eexists. split; [reflexivity|].
  pose proof (inject_Z_pos n Hn) as Nq.
  assert (B1 : inject_Z n * inject_Z mn <= inject_Z S)
    by (rewrite <- inject_Z_mult, <- Zle_Qle; lia).
  assert (B2 : inject_Z S <= inject_Z n * inject_Z mx)
    by (rewrite <- inject_Z_mult, <- Zle_Qle; lia).
  assert (L : inject_Z mn <= inject_Z S / inject_Z n)
    by (apply Qle_shift_div_l; [exact Nq | lra]).
  assert (U : inject_Z S / inject_Z n <= inject_Z mx)
    by (apply Qle_shift_div_r; [exact Nq | lra]).
  apply (round53_ge_int _ _ Smn) in L. apply (round53_le_int _ _ Smx) in U.
  set (x := round53 (inject_Z S / inject_Z n)) in *.
  split.
  - rewrite <- (Qfloor_Z mn). apply Qfloor_resp_le. lra.
  - assert (T : (Qfloor (x + (1 # 2))%Q <= Qfloor (inject_Z mx + (1 # 2))%Q)%Z)
      by (apply Qfloor_resp_le; lra).
    assert (T2 : Qfloor (inject_Z mx + (1 # 2)) = mx).
    { apply Qfloor_unique; [lra|]. rewrite inject_Z_plus. change (inject_Z 1) with 1. lra. }
    lia.
Qed.

(** ** Percentiles and averages *)

Lemma array_get_int (l : list Z) (i : Z) :
  (0 <= i)%Z -> array_get l (Js.int i) = nth_error l (Z.to_nat i).
Proof.
  intros H. unfold array_get, Js.int. rewrite Qfloor_Z.
  rewrite (proj2 (Qeq_bool_iff _ _) (Qeq_refl _)).
  destruct (Z.leb_spec 0 i); [reflexivity | lia].
Qed.

Lemma div_int_Fin (q : Q) (b : Z) :
  b <> 0%Z -> (Fin q / Fin (inject_Z b))%js = Fin (round53 (q / inject_Z b)).
Proof.
  intros H. unfold Js.div. rewrite Qeq_bool_int_0.
  destruct (Z.eqb_spec b 0); [contradiction | reflexivity].
Qed.






(** ** The summary *)

Lemma summarize_counts st rs :
  let s := summarize st rs in
  (TestSummary.successCount s + TestSummary.errorCount s = TestSummary.totalRequests s)%Z.
Proof. cbv zeta. unfold summarize. cbn [TestSummary.successCount TestSummary.errorCount TestSummary.totalRequests]. lia. Qed.

Lemma summarize_average_between st rs :
  (sum_abs (allTimes rs) <= 9007199254740992)%Z ->
  let s := summarize st rs in
  exists a, TestSummary.avgResponseTime s = Js.int a /\
            (TestSummary.minResponseTime s <= a <= TestSummary.maxResponseTime s)%Z.
Proof.
  intros Hsum. cbv zeta. unfold summarize.
  cbn [TestSummary.avgResponseTime TestSummary.minResponseTime TestSummary.maxResponseTime].
  pose proof (sort_asc_sorted (allTimes rs)) as Srt.
  pose proof (sort_asc_perm (allTimes rs)) as Prm.
  rewrite <- (sum_abs_perm _ _ Prm) in Hsum.
  set (sl := sort_asc (allTimes rs)) in *. clearbody sl. clear Prm.
  destruct sl as [|mn tl] eqn:E.
  - exists 0%Z. split; [reflexivity | simpl; lia].
  - rewrite <- E in *.
    assert (Hlen : (0 < List.length sl)%nat) by (rewrite E; simpl; lia).
    destruct (nth_error sl (List.length sl - 1)) as [mx|] eqn:Emx;
      [| apply nth_error_None in Emx; lia].
    assert (Emn : nth_error sl 0 = Some mn) by (rewrite E; reflexivity).
    rewrite Emn.
    pose proof (sorted_last_max sl mx Srt Emx) as Fmx.
    assert (Fmn : Forall (fun x => (mn <= x)%Z) sl) by (rewrite E in Srt |- *; apply sorted_head_min, Srt).
    assert (F : Forall (fun x => (mn <= x <= mx)%Z) sl).
    { rewrite Forall_forall in *. intros x Hx. split; [apply Fmn | apply Fmx]; exact Hx. }
    pose proof (zsum_bounds sl mn mx F) as ZB.
    rewrite reduce_sum_exact by exact Hsum. unfold length_num.
    apply round_mean_bounds.
    + lia.
    + lia.
    + unfold safe. pose proof (sum_abs_In mn sl (nth_error_In _ _ Emn)). lia.
    + unfold safe. pose proof (sum_abs_In mx sl (nth_error_In _ _ Emx)). lia.
Qed.

(** C3. The summary of every run, completed or cancelled, has
    [successCount + errorCount = totalRequests]; and when requests were
    made, and the latencies add up to at most 2^53 ms, the average is an
    integer between the minimum and the maximum. *)
Theorem runTest_summary_invariants (st : LoadTestingState) (env : Env) :
  let s := snd (runTest st env) in
  (TestSummary.successCount s + TestSummary.errorCount s = TestSummary.totalRequests s)%Z /\
  ((sum_abs (allTimes (finalRun st env)) <= 2 ^ 53)%Z ->
   (0 < TestSummary.totalRequests s)%Z ->
   exists a, TestSummary.avgResponseTime s = Js.int a /\
             (TestSummary.minResponseTime s <= a <= TestSummary.maxResponseTime s)%Z).
Proof.
  cbv zeta. unfold runTest. cbn [snd]. split.
  - apply summarize_counts.
  - intros Hsum _. apply summarize_average_between. exact Hsum.
Qed.

Lemma valid_is_positive_resolved (rs : list FetchResult) :
  filter (fun r => (0 <? r)%Z) (map result_of rs)
  = filter (fun d => (0 <? d)%Z) (resolved_times rs).
Proof.
  induction rs as [|[d|] rs IH]; simpl; [reflexivity | | exact IH].
  rewrite IH. reflexivity.
Qed.

Lemma filter_map_agree {A} (p : Z -> bool) (f g : A -> Z) (l : list A) :
  (forall x, In x l -> f x = g x \/ (p (f x) = false /\ p (g x) = false)) ->
  filter p (map f l) = filter p (map g l).
Proof.
  induction l as [|x l IH]; intros H; simpl; [reflexivity|].
  rewrite IH by (intros y Hy; apply H; right; exact Hy).
  destruct (H x (or_introl eq_refl)) as [-> | [-> ->]]; reflexivity.
Qed.

(** C9. A request of tick [t] that succeeds with a latency of 0 ms is
    counted in the total and its latency is appended to the latency history
    of the run, while the sample of the tick, from which the average, p95
    and p99 of its metric point are computed, holds the strictly positive
    latencies only: it is the sample the tick would have had with that
    request failing. *)
Theorem zero_latency_counted_not_sampled
    (st : LoadTestingState) (env : Env) (t i : nat) (rs : RunState) :
  (i < ToLength (tickUsers st t))%nat -> fetch env t i = Resolved 0 ->
  let rs' := tick st env t rs in
  let valid := tickValid st env t in
  totalReqs rs' = (totalReqs rs + Z.of_nat (ToLength (tickUsers st t)))%Z /\
  (exists before after, allTimes rs' = (allTimes rs ++ before ++ 0%Z :: after)%list) /\
  valid = filter (fun d => (0 <? d)%Z) (resolved_times (tickOutcomes st env t)) /\
  ~ In 0%Z valid /\
  valid = tickValid st (failing_instead env t i) t /\
  exists point, metrics rs' = (metrics rs ++ [point])%list /\
    MetricPoint.avgResponseTime point = Math.round (average valid) /\
    MetricPoint.p95 point = round_elem (percentile (95 # 100) (sort_asc valid)) /\
    MetricPoint.p99 point = round_elem (percentile (99 # 100) (sort_asc valid)).
Proof.
  intros Hi Hf. cbv zeta. repeat split.
  - unfold tick. cbn [totalReqs]. unfold tickOutcomes. rewrite length_map, length_seq. reflexivity.
  - assert (I : In 0%Z (resolved_times (tickOutcomes st env t))).
    { unfold resolved_times, tickOutcomes. apply in_flat_map.
      exists (Resolved 0). split; [|left; reflexivity].
      rewrite <- Hf. apply in_map. apply in_seq. lia. }
    destruct (in_split _ _ I) as (before & after & E).
    exists before, after. unfold tick. cbn [allTimes]. rewrite E. reflexivity.
  - unfold tickValid. apply valid_is_positive_resolved.
  - unfold tickValid. intros I. apply filter_In in I. destruct I as [_ I]. discriminate I.
  - unfold tickValid, tickOutcomes. rewrite !map_map. apply filter_map_agree.
    intros j _. cbn [failing_instead fetch]. rewrite Nat.eqb_refl. cbn [andb].
    destruct (Nat.eqb_spec j i) as [-> | _]; [right | left; reflexivity].
    rewrite Hf. split; reflexivity.
  - eexists. unfold tick. cbn [metrics]. repeat split.
Qed.

(** X23. The requests of a tick settle in any order, and their latencies are
    pushed to the history in that order; the summary does not depend on
    it. *)
Lemma summarize_completion_order (st : LoadTestingState) (rs rs' : RunState) :
  Permutation (allTimes rs) (allTimes rs') ->
  totalReqs rs = totalReqs rs' -> errors rs = errors rs' ->
  summarize st rs = summarize st rs'.
Proof.
  intros P T E. unfold summarize. rewrite (sort_asc_perm_eq _ _ P), T, E. reflexivity.
Qed.

(** ** The sample run *)

Lemma runTest_summary_invariants_witness :
  let s := snd (runTest sampleState sampleEnv) in
  (TestSummary.successCount s + TestSummary.errorCount s = TestSummary.totalRequests s)%Z /\
  TestSummary.totalRequests s = 6%Z /\
  exists a, TestSummary.avgResponseTime s = Js.int a /\
            (TestSummary.minResponseTime s <= a <= TestSummary.maxResponseTime s)%Z.
Proof.
  destruct (runTest_summary_invariants sampleState sampleEnv) as [A B].
  split; [exact A|]. split; [reflexivity|].
  apply B; vm_compute; [intros; discriminate | reflexivity].
Defined.

(** The request that took 0 ms is in the history of the run and lowers the
    average of the summary; the metric point of the tick shows the 120 ms of
    the other success. *)
Lemma zero_latency_counted_not_sampled_witness :
  let rs' := tick sampleState sampleEnv 0 initialRun in
  totalReqs rs' = 3%Z /\ allTimes rs' = [0; 120]%Z /\
  tickValid sampleState sampleEnv 0 = [120]%Z /\
  TestSummary.avgResponseTime (summarize sampleState rs') = Js.int 60 /\
  exists point, metrics rs' = [point] /\
    MetricPoint.avgResponseTime point = Js.int 120 /\
    MetricPoint.p95 point = Js.int 120 /\ MetricPoint.p99 point = Js.int 120.
Proof.
  destruct (zero_latency_counted_not_sampled sampleState sampleEnv 0 0 initialRun)
    as (T & _ & _ & _ & _ & point & P & Pa & P95 & P99).
  - vm_compute. lia.
  - reflexivity.
  - split; [exact T|]. split; [reflexivity|]. split; [reflexivity|].
    split; [vm_compute; reflexivity|].
    exists point. split; [exact P|]. rewrite Pa, P95, P99.
    repeat split; vm_compute; reflexivity.
Defined.

(** ** The profiles over the ticks of a run *)

Lemma min_1_Fin x : exists y, Math.min (Js.int 1) (Fin x) = Fin y /\ y == Qmin 1 x.
Proof.
  unfold Math.min, Js.compare, Js.int. change (inject_Z 1) with 1.
  destruct (Qcompare_spec 1 x) as [E | E | E].
  - exists 1. split; [reflexivity|]. rewrite Q.min_l; lra.
  - exists 1. split; [reflexivity|]. rewrite Q.min_l; lra.
  - exists x. split; [reflexivity|]. rewrite Q.min_r; lra.
Qed.

Lemma Qmin_mono_r a x x' : x <= x' -> Qmin a x <= Qmin a x'.
Proof.
  intros H. apply Q.min_glb; [apply Q.le_min_l|].
  apply Qle_trans with x; [apply Q.le_min_r | exact H].
Qed.

Lemma mul_int_Fin (m : Z) (y : Q) :
  (Js.int m * Fin y)%js = Fin (round53 (inject_Z m * y)).
Proof. reflexivity. Qed.

Lemma floor_round53 (q : Q) : Math.floor (Fin q) = Js.int (Qfloor q).
Proof. reflexivity. Qed.

(** [Math.max(1, Math.floor(m * f))] grows with the fraction [f]. *)
Lemma users_of_fraction_mono (m : Z) (y y' : Q) :
  (0 <= m)%Z -> y <= y' ->
  exists k k',
    Math.max (Js.int 1) (Math.floor (Js.int m * Fin y)%js) = Js.int k /\
    Math.max (Js.int 1) (Math.floor (Js.int m * Fin y')%js) = Js.int k' /\
    (k <= k')%Z.
Proof.
  intros Hm Hy. pose proof (inject_Z_nonneg m Hm) as Mq.
  rewrite !mul_int_Fin, !floor_round53, !max_int. do 2 eexists. split; [reflexivity|]. split; [reflexivity|].
  apply Z.max_le_compat_l, Qfloor_resp_le, round53_mono. nra.
Qed.

(** X1. The ramp never goes down: a later tick has at least as many users,
    rounding included. *)
Theorem rampup_getUsers_monotone (t t' m r : Z) (d d' : number) :
  (0 <= t <= t')%Z -> safe (t' + 1) -> (1 <= m)%Z -> safe r ->
  exists k k',
    rampup_getUsers (Js.int t) d (Js.int m) (Js.int r) = Js.int k /\
    rampup_getUsers (Js.int t') d' (Js.int m) (Js.int r) = Js.int k' /\
    (k <= k')%Z.
Proof.
  intros Ht St Hm Sr. unfold rampup_getUsers. rewrite leb_int.
  destruct (Z.leb_spec r 0) as [Hr | Hr].
  - exists m, m. repeat split; lia.
  - rewrite !int_add by (unfold safe in *; lia). rewrite !div_int by lia.
    pose proof (inject_Z_pos r Hr) as Rq.
    assert (Ri : 0 < / inject_Z r) by (apply Qinv_lt_0_compat; exact Rq).
    assert (X : round53 (inject_Z (t + 1) / inject_Z r)
                <= round53 (inject_Z (t' + 1) / inject_Z r)).
    { apply round53_mono. unfold Qdiv.
      assert (inject_Z (t + 1) <= inject_Z (t' + 1)) by (rewrite <- Zle_Qle; lia).
      nra. }
    destruct (min_1_Fin (round53 (inject_Z (t + 1) / inject_Z r))) as (y & -> & Ey).
    destruct (min_1_Fin (round53 (inject_Z (t' + 1) / inject_Z r))) as (y' & -> & Ey').
    apply users_of_fraction_mono; [lia|].
    rewrite Ey, Ey'. apply Qmin_mono_r, X.
Qed.

Lemma rampup_getUsers_monotone_witness :
  exists k k',
    rampup_getUsers (Js.int 13) (Js.int 45) (Js.int 22) (Js.int 22) = Js.int k /\
    rampup_getUsers (Js.int 14) (Js.int 45) (Js.int 22) (Js.int 22) = Js.int k' /\
    (k <= k')%Z.
Proof.
  apply (rampup_getUsers_monotone 13 14 22 22); unfold safe; simpl; lia.
Defined.

(** X2. From tick [rampUp - 1] on the ramp-up profile runs at the full
    [maxUsers]. *)
Theorem rampup_getUsers_full_after_ramp (t m r : Z) (d : number) :
  (0 <= t <= 2 ^ 50)%Z -> (1 <= m <= 2 ^ 50)%Z -> (r <= t + 1)%Z ->
  rampup_getUsers (Js.int t) d (Js.int m) (Js.int r) = Js.int m.
Proof.
  intros Ht Hm Hr. unfold rampup_getUsers. rewrite leb_int.
  destruct (Z.leb_spec r 0) as [R0 | R0]; [reflexivity|].
  change (2 ^ 50)%Z with 1125899906842624%Z in *.
  rewrite int_add by (unfold safe; lia). rewrite div_int by lia.
  destruct (min_1_Fin (round53 (inject_Z (t + 1) / inject_Z r))) as (y & -> & Ey).
  assert (Y : y == 1).
  { rewrite Ey. apply Q.min_l. apply (round53_ge_int _ 1); [unfold safe; simpl; lia|].
    change (inject_Z 1) with 1. apply Qle_shift_div_l; [apply inject_Z_pos; exact R0|].
    rewrite Qmult_1_l, <- Zle_Qle. exact Hr. }
  rewrite mul_int_Fin.
  assert (E : round53 (inject_Z m * y) == inject_Z m).
  { rewrite (round53_comp _ (inject_Z m)) by (rewrite Y; ring).
    rewrite round53_Z by (simpl; lia). reflexivity. }
  rewrite (floor_Fin _ _ E), Qfloor_Z, max_int. f_equal. lia.
Qed.

Lemma rampup_getUsers_full_after_ramp_witness :
  rampup_getUsers (Js.int 4) (Js.int 30) (Js.int 10) (Js.int 5) = Js.int 10.
Proof.
  apply (rampup_getUsers_full_after_ramp 4 10 5 (Js.int 30)); simpl; lia.
Defined.

(** X4. The stress profile never steps down: a later tick has at least as many
    users. *)
Theorem stress_getUsers_monotone (t t' d m : Z) (r r' : number) :
  (0 <= t <= t')%Z -> safe t' -> (4 <= d)%Z -> safe d -> (1 <= m)%Z ->
  exists k k',
    stress_getUsers (Js.int t) (Js.int d) (Js.int m) r = Js.int k /\
    stress_getUsers (Js.int t') (Js.int d) (Js.int m) r' = Js.int k' /\
    (k <= k')%Z.
Proof.
  intros Ht St Hd Sd Hm. unfold stress_getUsers.
  destruct (div_int_pow2 d 2 4 Sd ltac:(lia) eq_refl) as (q & -> & Eq).
  rewrite (floor_Fin q _ Eq). change (inject_Z 4) with 4.
  set (stageLen := Qfloor (inject_Z d / 4)).
  assert (Hs : (1 <= stageLen)%Z).
  { unfold stageLen. change 4 with (inject_Z 4). rewrite <- Zdiv_Qdiv.
    apply Z.div_le_lower_bound; lia. }
  pose proof (inject_Z_pos stageLen ltac:(lia)) as Sq.
  assert (Si : 0 < / inject_Z stageLen) by (apply Qinv_lt_0_compat; exact Sq).
  rewrite int_sub by (unfold safe; simpl; lia). change (4 - 1)%Z with 3%Z.
  rewrite !div_int by lia.
  pose proof (inject_Z_nonneg t ltac:(lia)) as Tq.
  assert (Tle : inject_Z t <= inject_Z t') by (rewrite <- Zle_Qle; lia).
  set (j := Qfloor (round53 (inject_Z t / inject_Z stageLen))).
  set (j' := Qfloor (round53 (inject_Z t' / inject_Z stageLen))).
  assert (Hj : (0 <= j)%Z).
  { change 0%Z with (Qfloor 0). apply Qfloor_resp_le, round53_nonneg.
    unfold Qdiv. nra. }
  assert (Hjj : (j <= j')%Z).
  { apply Qfloor_resp_le, round53_mono. unfold Qdiv. nra. }
  rewrite !floor_round53. fold j j'. rewrite !min_int.
  set (s := Z.min 3 j). set (s' := Z.min 3 j').
  rewrite !int_add by (unfold safe; lia).
  rewrite !div_int by lia.
  apply users_of_fraction_mono; [lia|].
  apply round53_mono. unfold Qdiv. change (/ inject_Z 4) with (1 # 4).
  assert (inject_Z (s + 1) <= inject_Z (s' + 1)) by (rewrite <- Zle_Qle; lia).
  lra.
Qed.

Lemma stress_getUsers_monotone_witness :
  exists k k',
    stress_getUsers (Js.int 6) (Js.int 30) (Js.int 10) (Js.int 5) = Js.int k /\
    stress_getUsers (Js.int 21) (Js.int 30) (Js.int 10) (Js.int 5) = Js.int k' /\
    (k <= k')%Z.
Proof.
  apply (stress_getUsers_monotone 6 21 30 10); unfold safe; simpl; lia.
Defined.

(** X5. The burst of the spike profile lasts at least three ticks: at the tick
    before the midpoint, at the midpoint and at the tick after it the
    profile returns [max] itself, whatever the duration. *)
Theorem spike_getUsers_burst (t d : Z) (m r : number) :
  (0 <= d <= 2 ^ 50)%Z -> (d / 2 - 1 <= t <= d / 2 + 1)%Z ->
  spike_getUsers (Js.int t) (Js.int d) m r = m.
Proof.
  intros Hd Ht. unfold spike_getUsers.
  rewrite (floor_div_int d 2 Hd ltac:(lia)), <- Zdiv_Qdiv.
  assert (Hmid : (0 <= d / 2 <= d)%Z).
  { split; [apply Z.div_pos; lia|]. apply Z.div_le_upper_bound; lia. }
  pose proof (inject_Z_nonneg d ltac:(lia)) as Dq.
  change (2 ^ 50)%Z with 1125899906842624%Z in *.
  assert (C : 0 <= round53 (2 # 10) <= 1) by (split; vm_compute; intros; discriminate).
  destruct (floor_mul_fraction d (round53 (2 # 10)) ltac:(lia)
              ltac:(unfold safe; lia) C) as (w & W & Hw).
  unfold Js.lit. rewrite W, max_int.
  rewrite int_sub by (unfold safe; lia).
  rewrite int_add by (unfold safe; lia).
  rewrite geb_int, ltb_int.
  replace ((d / 2 - 1 <=? t)%Z) with true by (symmetry; apply Z.leb_le; lia).
  replace ((t <? d / 2 - 1 + Z.max 3 w)%Z) with true by (symmetry; apply Z.ltb_lt; lia).
  reflexivity.
Qed.

Lemma spike_getUsers_burst_witness :
  spike_getUsers (Js.int 3) (Js.int 5) (Js.int 40) (Js.int 0) = Js.int 40.
Proof.
  apply (spike_getUsers_burst 3 5 (Js.int 40) (Js.int 0)); simpl; lia.
Defined.

(** X25. The last stage of the stress profile runs at the full load: from
    tick [3 * floor(duration / 4)] on it returns [maxUsers]. *)
Theorem stress_getUsers_full_last_stage (t d m : Z) (r : number) :
  (4 <= d)%Z -> safe d -> (3 * (d / 4) <= t)%Z -> safe t -> (1 <= m)%Z -> safe m ->
  stress_getUsers (Js.int t) (Js.int d) (Js.int m) r = Js.int m.
Proof.
  intros Hd Sd Ht St Hm Sm. unfold stress_getUsers.
  destruct (div_int_pow2 d 2 4 Sd ltac:(lia) eq_refl) as (q & -> & Eq).
  rewrite (floor_Fin q _ Eq). change (inject_Z 4) with 4.
  assert (Es : Qfloor (inject_Z d / 4) = (d / 4)%Z).
  { change 4 with (inject_Z 4). rewrite <- Zdiv_Qdiv. reflexivity. }
  rewrite Es. set (s := (d / 4)%Z) in *.
  assert (Hs : (1 <= s)%Z) by (unfold s; apply Z.div_le_lower_bound; lia).
  pose proof (inject_Z_pos s ltac:(lia)) as Sq.
  rewrite int_sub by (unfold safe; simpl; lia). change (4 - 1)%Z with 3%Z.
  rewrite div_int by lia. rewrite floor_round53.
  assert (Hj : (3 <= Qfloor (round53 (inject_Z t / inject_Z s)))%Z).
  { rewrite <- (Qfloor_Z 3). apply Qfloor_resp_le.
    apply round53_ge_int; [unfold safe; simpl; lia|].
    apply Qle_shift_div_l; [exact Sq|]. rewrite <- inject_Z_mult, <- Zle_Qle. lia. }
  rewrite min_int, Z.min_l by exact Hj.
  rewrite int_add by (unfold safe; simpl; lia). change (3 + 1)%Z with 4%Z.
  destruct (div_int_pow2 4 2 4 ltac:(unfold safe; simpl; lia) ltac:(lia) eq_refl)
    as (q' & -> & Eq').
  rewrite mul_int_Fin.
  assert (E : round53 (inject_Z m * q') == inject_Z m).
  { rewrite (round53_comp _ (inject_Z m)).
    - rewrite round53_Z by exact Sm. reflexivity.
    - rewrite Eq'. change (inject_Z 4) with 4. field. }
  rewrite (floor_Fin _ _ E), Qfloor_Z, max_int. f_equal. lia.
Qed.

Lemma stress_getUsers_full_last_stage_witness :
  stress_getUsers (Js.int 21) (Js.int 30) (Js.int 10) (Js.int 5) = Js.int 10.
Proof.
  apply (stress_getUsers_full_last_stage 21 30 10 (Js.int 5));
    unfold safe; simpl; lia.
Defined.

(** [Math.max(1, Math.floor(m * f))] grows with [m]. *)
Lemma users_of_fraction_mono_users (m m' : Z) (y : Q) :
  (m <= m')%Z -> 0 <= y ->
  exists k k',
    Math.max (Js.int 1) (Math.floor (Js.int m * Fin y)%js) = Js.int k /\
    Math.max (Js.int 1) (Math.floor (Js.int m' * Fin y)%js) = Js.int k' /\
    (k <= k')%Z.
Proof.
  intros Hm Hy. rewrite !mul_int_Fin, !floor_round53, !max_int.
  do 2 eexists. split; [reflexivity|]. split; [reflexivity|].
  apply Z.max_le_compat_l, Qfloor_resp_le, round53_mono.
  assert (inject_Z m <= inject_Z m') by (rewrite <- Zle_Qle; exact Hm). nra.
Qed.

(** X26. Asking for more users never lowers the load: at every tick of a
    run of at least four ticks, every profile returns at least as many
    active users for a larger [maxUsers]. *)
Theorem profileUsers_monotone_in_users (p : TestProfile) (t d m m' r : Z) :
  (4 <= d <= 2 ^ 53)%Z -> (0 <= t < d)%Z -> (m <= m')%Z -> (Z.abs r <= 2 ^ 53)%Z ->
  exists k k',
    profileUsers p (Js.int t) (Js.int d) (Js.int m) (Js.int r) = Js.int k /\
    profileUsers p (Js.int t) (Js.int d) (Js.int m') (Js.int r) = Js.int k' /\
    (k <= k')%Z.
Proof.
  intros Hd Ht Hm Hr. change (2 ^ 53)%Z with 9007199254740992%Z in *.
  assert (Ramp : exists k k',
            rampup_getUsers (Js.int t) (Js.int d) (Js.int m) (Js.int r) = Js.int k /\
            rampup_getUsers (Js.int t) (Js.int d) (Js.int m') (Js.int r) = Js.int k' /\
            (k <= k')%Z).
  { unfold rampup_getUsers. rewrite leb_int.
    destruct (Z.leb_spec r 0) as [R0 | R0].
    - exists m, m'. repeat split. exact Hm.
    - rewrite int_add by (unfold safe; lia). rewrite div_int by lia.
      destruct (min_1_Fin (round53 (inject_Z (t + 1) / inject_Z r))) as (y & -> & Ey).
      apply users_of_fraction_mono_users; [exact Hm|].
      rewrite Ey. apply Q.min_glb; [lra|]. apply round53_nonneg.
      apply Qle_shift_div_l; [apply inject_Z_pos; exact R0|].
      rewrite Qmult_0_l. apply inject_Z_nonneg. lia. }
  destruct p; unfold profileUsers, activeProfile; simpl find; cbv beta iota;
    unfold getUsers.
  - exists m, m'. repeat split. exact Hm.
  - exact Ramp.
  - unfold spike_getUsers. destruct (_ && _).
    + exists m, m'. repeat split. exact Hm.
    + unfold Js.lit. apply users_of_fraction_mono_users; [exact Hm|].
      vm_compute. intros; discriminate.
  - unfold stress_getUsers.
    destruct (div_int_pow2 d 2 4 ltac:(unfold safe; lia) ltac:(lia) eq_refl) as (q & -> & Eq).
    rewrite (floor_Fin q _ Eq). change (inject_Z 4) with 4.
    set (s := Qfloor (inject_Z d / 4)).
    assert (Hs : (1 <= s)%Z).
    { unfold s. change 4 with (inject_Z 4). rewrite <- Zdiv_Qdiv.
      apply Z.div_le_lower_bound; lia. }
    rewrite int_sub by (unfold safe; simpl; lia). change (4 - 1)%Z with 3%Z.
    rewrite div_int by lia. rewrite floor_round53, min_int.
    assert (Hj : (0 <= Qfloor (round53 (inject_Z t / inject_Z s)))%Z).
    { change 0%Z with (Qfloor 0). apply Qfloor_resp_le, round53_nonneg.
      apply Qle_shift_div_l; [apply inject_Z_pos; lia|].
      rewrite Qmult_0_l. apply inject_Z_nonneg. lia. }
    rewrite int_add by (unfold safe; lia). rewrite div_int by lia.
    apply users_of_fraction_mono_users; [exact Hm|].
    apply round53_nonneg. apply Qle_shift_div_l; [reflexivity|].
    rewrite Qmult_0_l. apply inject_Z_nonneg. lia.
  - exact Ramp.
Qed.

Lemma profileUsers_monotone_in_users_witness :
  exists k k',
    profileUsers spike (Js.int 3) (Js.int 30) (Js.int 10) (Js.int 5) = Js.int k /\
    profileUsers spike (Js.int 3) (Js.int 30) (Js.int 100) (Js.int 5) = Js.int k' /\
    (k <= k')%Z.
Proof.
  apply (profileUsers_monotone_in_users spike 3 30 10 100 5); simpl; lia.
Defined.

(** ** The preview of a profile ([ProfilePreview]) *)

Lemma sub_int_Fin (a : Z) (z : Q) :
  (Js.int a - Fin z)%js = Fin (round53 (inject_Z a + - z)).
Proof. reflexivity. Qed.

Lemma mul_Fin_int (x : Q) (b : Z) :
  (Fin x * Js.int b)%js = Fin (round53 (x * inject_Z b)).
Proof. reflexivity. Qed.

(** [i / 19] for a sample index: a fraction between 0 and 1 that grows with
    the index. *)
Lemma sample_fraction (i : nat) :
  (i <= 19)%nat ->
  exists x, (Js.int (Z.of_nat i) / Js.int 19)%js = Fin x /\ 0 <= x <= 1 /\
            x = round53 (inject_Z (Z.of_nat i) / 19).
Proof.
  intros Hi. rewrite div_int by lia. eexists. split; [reflexivity|].
  split; [|reflexivity].
  assert (A : 0 <= inject_Z (Z.of_nat i) <= 19).
  { split; [change 0 with (inject_Z 0) | change 19 with (inject_Z 19)];
      rewrite <- Zle_Qle; lia. }
  change (inject_Z 19) with 19. split.
  - apply round53_nonneg. unfold Qdiv. change (/ 19) with (1 # 19). lra.
  - apply (round53_le_int _ 1); [unfold safe; simpl; lia|].
    change (inject_Z 1) with 1. unfold Qdiv. change (/ 19) with (1 # 19). lra.
Qed.

(** A sampled tick lies in the run, and a later sample is not an earlier
    tick. *)
Lemma previewTick_range (d : Z) (i j : nat) :
  (1 <= d <= 2 ^ 53)%Z -> (i <= j <= 19)%nat ->
  exists a b, previewTick (Js.int d) i = Js.int a /\
              previewTick (Js.int d) j = Js.int b /\
              (0 <= a <= b)%Z /\ (b <= d - 1)%Z.
Proof.
  intros Hd Hij. change (2 ^ 53)%Z with 9007199254740992%Z in Hd.
  pose proof (inject_Z_nonneg (d - 1) ltac:(lia)) as Dq.
  assert (S1 : safe (d - 1)) by (unfold safe; lia).
  unfold previewTick. rewrite int_sub by exact S1.
  destruct (sample_fraction i ltac:(lia)) as (x & -> & Hx & Ex).
  destruct (sample_fraction j ltac:(lia)) as (y & -> & Hy & Ey).
  rewrite !mul_Fin_int, !floor_round53. do 2 eexists.
  split; [reflexivity|]. split; [reflexivity|].
  assert (XY : x <= y).
  { rewrite Ex, Ey. apply round53_mono. unfold Qdiv. change (/ 19) with (1 # 19).
    assert (inject_Z (Z.of_nat i) <= inject_Z (Z.of_nat j)) by (rewrite <- Zle_Qle; lia).
    lra. }
  clear Ex Ey. destruct Hx as [Hx0 Hx1], Hy as [Hy0 Hy1].
  set (D := inject_Z (d - 1)) in *.
  split; [split|].
  - change 0%Z with (Qfloor 0). apply Qfloor_resp_le, round53_nonneg.
    apply Qmult_le_0_compat; assumption.
  - apply Qfloor_resp_le, round53_mono. nra.
  - rewrite <- (Qfloor_Z (d - 1)). apply Qfloor_resp_le, round53_le_int; [exact S1|].
    fold D. nra.
Qed.

(** X6. The twenty sampled ticks of the preview start at tick 0, end at the
    last tick of the run, stay inside the run and never go back. *)
Theorem previewTick_covers_run (d : Z) :
  (1 <= d <= 2 ^ 53)%Z ->
  previewTick (Js.int d) 0 = Js.int 0 /\
  previewTick (Js.int d) 19 = Js.int (d - 1) /\
  forall i j, (i <= j <= 19)%nat ->
    exists a b, previewTick (Js.int d) i = Js.int a /\
                previewTick (Js.int d) j = Js.int b /\
                (0 <= a <= b)%Z /\ (b <= d - 1)%Z.
Proof.
  intros Hd. split; [|split; [|intros i j Hij; apply previewTick_range; assumption]];
    change (2 ^ 53)%Z with 9007199254740992%Z in Hd;
    assert (S1 : safe (d - 1)) by (unfold safe; lia);
    unfold previewTick; rewrite int_sub by exact S1;
    rewrite div_int by lia; rewrite mul_Fin_int.
  - assert (E' : round53 (round53 (inject_Z (Z.of_nat 0) / inject_Z 19) * inject_Z (d - 1))
                 == 0).
    { rewrite (round53_zero (inject_Z (Z.of_nat 0) / inject_Z 19)) by reflexivity.
      rewrite round53_zero by ring. reflexivity. }
    rewrite (floor_Fin _ _ E'). reflexivity.
  - assert (E : round53 (inject_Z (Z.of_nat 19) / inject_Z 19) == 1).
    { rewrite (round53_comp _ (inject_Z 1)) by reflexivity.
      rewrite round53_Z by (simpl; lia). reflexivity. }
    assert (E' : round53 (round53 (inject_Z (Z.of_nat 19) / inject_Z 19) * inject_Z (d - 1))
                 == inject_Z (d - 1)).
    { rewrite (round53_comp _ (inject_Z (d - 1))) by (rewrite E; ring).
      rewrite round53_Z by exact S1. reflexivity. }
    rewrite (floor_Fin _ _ E'), Qfloor_Z. reflexivity.
Qed.

Lemma previewTick_covers_run_witness :
  previewTick (Js.int 30) 0 = Js.int 0 /\
  previewTick (Js.int 30) 19 = Js.int (30 - 1) /\
  forall i j, (i <= j <= 19)%nat ->
    exists a b, previewTick (Js.int 30) i = Js.int a /\
                previewTick (Js.int 30) j = Js.int b /\
                (0 <= a <= b)%Z /\ (b <= 30 - 1)%Z.
Proof. apply (previewTick_covers_run 30). simpl. lia. Defined.

(** Every profile of the table, at a tick of a run of at least four
    ticks. *)
Lemma getUsers_range (cfg : TestProfileConfig) (t d m r : Z) :
  In cfg testProfiles ->
  (4 <= d <= 2 ^ 53)%Z -> (0 <= t < d)%Z -> (1 <= m <= 2 ^ 53)%Z ->
  (Z.abs r <= 2 ^ 53)%Z ->
  exists k, getUsers cfg (Js.int t) (Js.int d) (Js.int m) (Js.int r) = Js.int k
            /\ (1 <= k <= m)%Z.
Proof.
  intros Hc Hd Ht Hm Hr. change (2 ^ 53)%Z with 9007199254740992%Z in *.
  destruct Hc as [<- | [<- | [<- | [<- | [<- | []]]]]]; cbn [getUsers].
  - exists m. split; [reflexivity | lia].
  - apply rampup_getUsers_range; unfold safe; lia.
  - apply spike_getUsers_range; unfold safe; lia.
  - apply stress_getUsers_range; unfold safe; lia.
  - apply (rampup_getUsers_range t m r (Js.int d)); unfold safe; lia.
Qed.

Lemma profileUsers_range (p : TestProfile) (t d m r : Z) :
  (4 <= d <= 2 ^ 53)%Z -> (0 <= t < d)%Z -> (1 <= m <= 2 ^ 53)%Z ->
  (Z.abs r <= 2 ^ 53)%Z ->
  exists k, profileUsers p (Js.int t) (Js.int d) (Js.int m) (Js.int r) = Js.int k
            /\ (1 <= k <= m)%Z.
Proof.
  intros Hd Ht Hm Hr. unfold profileUsers.
  destruct (activeProfile p) as [cfg|] eqn:E.
  - apply getUsers_range; try assumption.
    unfold activeProfile in E. apply find_some in E. apply E.
  - destruct p; discriminate.
Qed.

Lemma Math_max_ints (l : list Z) (a : Z) :
  fold_left Math.max (map Js.int l) (Js.int a) = Js.int (fold_left Z.max l a).
Proof.
  revert a. induction l as [|x l IH]; intros a; [reflexivity|].
  cbn [map fold_left]. rewrite max_int. apply IH.
Qed.

Lemma fold_max_bounds (l : list Z) (a lo hi : Z) :
  (lo <= a <= hi)%Z -> Forall (fun x => (x <= hi)%Z) l ->
  (lo <= fold_left Z.max l a <= hi)%Z /\
  (a <= fold_left Z.max l a)%Z /\
  Forall (fun x => (x <= fold_left Z.max l a)%Z) l.
Proof.
  revert a. induction l as [|x l IH]; intros a Ha F.
  - cbn. repeat split; try lia. constructor.
  - inversion F as [|? ? Hx F']; subst. cbn [fold_left].
    destruct (IH (Z.max a x) ltac:(lia) F') as (B & A & G).
    repeat split; try lia. constructor; [lia | exact G].
Qed.

(** The points of a preview as integers. *)
Lemma previewPoints_ints (cfg : TestProfileConfig) (d m r : Z) :
  In cfg testProfiles ->
  (4 <= d <= 2 ^ 53)%Z -> (1 <= m <= 2 ^ 53)%Z -> (Z.abs r <= 2 ^ 53)%Z ->
  exists ks, previewPoints cfg (Js.int d) (Js.int m) (Js.int r) = map Js.int ks /\
             List.length ks = 20%nat /\ Forall (fun k => (1 <= k <= m)%Z) ks.
Proof.
  intros Hc Hd Hm Hr. unfold previewPoints.
  assert (G : forall l, Forall (fun i => (i <= 19)%nat) l ->
            exists ks,
              map (fun i => getUsers cfg (previewTick (Js.int d) i) (Js.int d)
                              (Js.int m) (Js.int r)) l = map Js.int ks /\
              List.length ks = List.length l /\ Forall (fun k => (1 <= k <= m)%Z) ks).
  { induction 1 as [|i l Hi F IH].
    - exists []. repeat split. constructor.
    - destruct IH as (ks & E & L & K).
      destruct (previewTick_range d i i ltac:(lia) ltac:(lia))
        as (a' & a & _ & Ea & [A0 A0'] & A1).
      destruct (getUsers_range cfg a d m r Hc Hd ltac:(lia) Hm Hr) as (k & Ek & Hk).
      exists (k :: ks). cbn [map List.length]. rewrite Ea, Ek, E, L.
      repeat split; try lia. constructor; assumption. }
  destruct (G (seq 0 20)) as (ks & E & L & K).
  { apply Forall_forall. intros i Hi. apply in_seq in Hi. lia. }
  exists ks. repeat split; assumption.
Qed.

(** X7. The preview of a profile on a run of at least four ticks has twenty
    points; the scale [max] is the largest of them, a whole number of users
    between 1 and [maxUsers]; and every point of the path lies in the box
    of 80 by 32 units, the first one behind an [M] and the others behind an
    [L]. *)
Theorem preview_stays_in_box (cfg : TestProfileConfig) (d m r : Z) :
  In cfg testProfiles ->
  (4 <= d <= 2 ^ 53)%Z -> (1 <= m <= 2 ^ 53)%Z -> (Z.abs r <= 2 ^ 53)%Z ->
  let points := previewPoints cfg (Js.int d) (Js.int m) (Js.int r) in
  (exists top, previewMax points = Js.int top /\ (1 <= top <= m)%Z /\
               In (Js.int top) (points ++ [Js.int 1])%list) /\
  map (fun c => fst (fst c)) (previewPath points) = "M"%string :: repeat "L"%string 19 /\
  Forall (fun c => exists x y, snd (fst c) = Fin x /\ snd c = Fin y /\
                               0 <= x <= 80 /\ 0 <= y <= 32)
         (previewPath points).
Proof.
  intros Hc Hd Hm Hr points.
  destruct (previewPoints_ints cfg d m r Hc Hd Hm Hr) as (ks & E & L & K).
  unfold points. rewrite E. clear points E.
  assert (M : previewMax (map Js.int ks) = Js.int (fold_left Z.max (ks ++ [1%Z])%list 1%Z)).
  { unfold previewMax, Math_max_of. change [Js.int 1] with (map Js.int [1%Z]).
    rewrite <- map_app.
    destruct ks as [|k ks]; [discriminate|].
    cbn [app map fold_left]. change (Math.max (Infinity true) (Js.int k)) with (Js.int k).
    rewrite Math_max_ints. f_equal.
    inversion K; subst. cbn [fold_left]. f_equal. lia. }
  assert (K1 : Forall (fun x => (x <= m)%Z) (ks ++ [1%Z])%list).
  { apply Forall_app. split; [|repeat constructor; lia].
    eapply Forall_impl; [|exact K]. intros; cbv beta in *; lia. }
  destruct (fold_max_bounds (ks ++ [1%Z])%list 1 1 m ltac:(lia) K1) as (B & _ & G).
  set (top := fold_left Z.max (ks ++ [1%Z])%list 1%Z) in *.
  split; [|split].
  - exists top. split; [exact M|]. split; [exact B|].
    change [Js.int 1] with (map Js.int [1%Z]). rewrite <- map_app. apply in_map.
    assert (A : forall l a, In (fold_left Z.max l a) (a :: l)).
    { induction l as [|x l IH]; intros a; [left; reflexivity|].
      cbn [fold_left]. destruct (IH (Z.max a x)) as [H | H].
      - destruct (Z.max_spec a x) as [[_ Q] | [_ Q]]; rewrite Q in *.
        + right. left. exact H.
        + left. exact H.
      - right. right. exact H. }
    destruct (A (ks ++ [1%Z])%list 1%Z) as [H | H]; [|exact H].
    fold top in H. rewrite <- H. apply in_or_app. right. left. reflexivity.
  - unfold previewPath. rewrite length_map, L.
    do 20 (destruct ks as [|? ks]; [discriminate|]).
    destruct ks; [reflexivity | discriminate].
  - unfold previewPath. rewrite M. rewrite length_map.
    apply Forall_forall. intros c Hin. apply in_map_iff in Hin.
    destruct Hin as ([i p] & <- & Hin). cbn [fst snd].
    pose proof (in_combine_l _ _ _ _ Hin) as Hi.
    pose proof (in_combine_r _ _ _ _ Hin) as Hp.
    apply in_seq in Hi. rewrite L in Hi.
    apply in_map_iff in Hp. destruct Hp as (k & <- & Hk).
    assert (Kk : (1 <= k <= top)%Z).
    { split.
      - rewrite Forall_forall in K. apply K, Hk.
      - rewrite Forall_forall in G. apply G, in_or_app. left. exact Hk. }
    unfold previewX, previewY.
    destruct (sample_fraction i ltac:(lia)) as (x & -> & Hx & _).
    rewrite div_int by lia. rewrite !mul_Fin_int, sub_int_Fin.
    do 2 eexists. split; [reflexivity|]. split; [reflexivity|].
    pose proof (inject_Z_pos k ltac:(lia)) as Kq.
    pose proof (inject_Z_pos top ltac:(lia)) as Tq.
    assert (Q : 0 <= round53 (inject_Z k / inject_Z top) <= 1).
    { split.
      - apply round53_nonneg. apply Qle_shift_div_l; [exact Tq | lra].
      - apply (round53_le_int _ 1); [unfold safe; simpl; lia|].
        change (inject_Z 1) with 1. apply Qle_shift_div_r; [exact Tq|].
        rewrite Qmult_1_l, <- Zle_Qle. lia. }
    set (q := round53 (inject_Z k / inject_Z top)) in *.
    assert (Z32 : 0 <= round53 (q * inject_Z 32) <= 32).
    { change (inject_Z 32) with 32. split.
      - apply round53_nonneg. lra.
      - apply (round53_le_int _ 32); [unfold safe; simpl; lia|].
        change (inject_Z 32) with 32. lra. }
    change (inject_Z 80) with 80. change (inject_Z 32) with 32 in *.
    repeat split.
    + apply round53_nonneg. lra.
    + apply (round53_le_int _ 80); [unfold safe; simpl; lia|].
      change (inject_Z 80) with 80. lra.
    + apply round53_nonneg. lra.
    + apply (round53_le_int _ 32); [unfold safe; simpl; lia|].
      change (inject_Z 32) with 32. lra.
Qed.

Lemma preview_stays_in_box_witness :
  let points :=
    previewPoints {| id := stress; label := "Stress";
                     description := "Step-up load in stages to find breaking point";
                     getUsers := stress_getUsers |}
                  (Js.int 30) (Js.int 10) (Js.int 5) in
  (exists top, previewMax points = Js.int top /\ (1 <= top <= 10)%Z /\
               In (Js.int top) (points ++ [Js.int 1])%list) /\
  map (fun c => fst (fst c)) (previewPath points) = "M"%string :: repeat "L"%string 19 /\
  Forall (fun c => exists x y, snd (fst c) = Fin x /\ snd c = Fin y /\
                               0 <= x <= 80 /\ 0 <= y <= 32)
         (previewPath points).
Proof.
  apply (preview_stays_in_box
           {| id := stress; label := "Stress";
              description := "Step-up load in stages to find breaking point";
              getUsers := stress_getUsers |} 30 10 5).
  - right. right. right. left. reflexivity.
  - simpl. lia.
  - simpl. lia.
  - simpl. lia.
Defined.

(** ** The request options in general *)

Lemma obj_get_assign_other o k v k' :
  k' <> k -> obj_get (obj_assign o k v) k' = obj_get o k'.
Proof.
  intros N. induction o as [|[k0 v0] o IH]; simpl.
  - destruct (String.eqb_spec k k'); [congruence | reflexivity].
  - destruct (String.eqb_spec k0 k) as [-> | N0]; simpl.
    + destruct (String.eqb_spec k k'); [congruence | reflexivity].
    + destruct (String.eqb k0 k'); [reflexivity | exact IH].
Qed.

Lemma obj_get_set o k v : k <> "__proto__" -> obj_get (obj_set o k v) k = Some v.
Proof.
  intros N. unfold obj_set. destruct (String.eqb_spec k "__proto__"); [contradiction|].
  apply obj_get_assign.
Qed.

Lemma obj_get_set_other o k v k' :
  k' <> k -> obj_get (obj_set o k v) k' = obj_get o k'.
Proof.
  intros N. unfold obj_set. destruct (String.eqb k "__proto__"); [reflexivity|].
  apply obj_get_assign_other, N.
Qed.

Lemma obj_assign_nonempty o k v : obj_assign o k v <> [].
Proof. destruct o as [|[k' v'] o]; simpl; [|destruct (String.eqb k' k)]; discriminate. Qed.

Lemma Object_keys_assign o k v :
  Object_keys (obj_assign o k v)
  = if existsb (String.eqb k) (Object_keys o) then Object_keys o
    else (Object_keys o ++ [k])%list.
Proof.
  unfold Object_keys. induction o as [|[k' v'] o IH]; simpl; [reflexivity|].
  rewrite (String.eqb_sym k k').
  destruct (String.eqb_spec k' k) as [-> | N]; simpl; [reflexivity|].
  rewrite IH. destruct (existsb (String.eqb k) (map fst o)); reflexivity.
Qed.

Lemma Object_keys_set_NoDup o k v :
  NoDup (Object_keys o) -> NoDup (Object_keys (obj_set o k v)).
Proof.
  intros H. unfold obj_set. destruct (String.eqb k "__proto__"); [exact H|].
  rewrite Object_keys_assign.
  destruct (existsb (String.eqb k) (Object_keys o)) eqn:E; [exact H|].
  apply NoDup_app; [exact H | repeat constructor; intros [] | ].
  intros x Hx [E' | []]. subst x.
  assert (T : existsb (String.eqb k) (Object_keys o) = true).
  { apply existsb_exists. exists k. split; [exact Hx | apply String.eqb_refl]. }
  congruence.
Qed.

(** The rows write their values in order: what is read under a key is the
    value of the last row with that key. *)
Lemma obj_get_rows (l : list KeyValuePair.t) (o : Obj) (k : string) :
  k <> "__proto__" ->
  obj_get (fold_left (fun o p => obj_set o (KeyValuePair.key p) (KeyValuePair.value p)) l o) k
  = match find (fun p => String.eqb (KeyValuePair.key p) k) (rev l) with
    | Some p => Some (KeyValuePair.value p)
    | None => obj_get o k
    end.
Proof.
  intros N. induction l as [|a l IH] using rev_ind; [reflexivity|].
  rewrite fold_left_app, rev_app_distr. cbn [fold_left rev app find].
  destruct (String.eqb_spec (KeyValuePair.key a) k) as [E | E].
  - rewrite E. apply obj_get_set, N.
  - rewrite obj_get_set_other by congruence. exact IH.
Qed.

Lemma rows_NoDup (l : list KeyValuePair.t) (o : Obj) :
  NoDup (Object_keys o) ->
  NoDup (Object_keys
           (fold_left (fun o p => obj_set o (KeyValuePair.key p) (KeyValuePair.value p)) l o)).
Proof.
  revert o. induction l as [|a l IH]; intros o H; [exact H|].
  apply IH, Object_keys_set_NoDup, H.
Qed.

Lemma callerHeaders_NoDup btoa st : NoDup (Object_keys (callerHeaders btoa st)).
Proof.
  unfold callerHeaders.
  assert (H := rows_NoDup
                 (filter (fun p => KeyValuePair.enabled p && truthy (KeyValuePair.key p))
                         (headers st)) [] (NoDup_nil _)).
  repeat match goal with |- context [if ?b then _ else _] => destruct b end;
    try apply Object_keys_set_NoDup; exact H.
Qed.

Lemma truthy_true s : s <> "" -> truthy s = true.
Proof. intros N. unfold truthy. destruct (String.eqb_spec s ""); [contradiction | reflexivity]. Qed.

(** [buildFetchOptions] as a function of the state: the options, and the
    header object left in the store. *)
Lemma materialize_eq (btoa : string -> string) (st : LoadTestingState) :
  materialize btoa st =
  let h := callerHeaders btoa st in
  let opts :=
    {| RequestInit.method := method st; RequestInit.mode := "no-cors";
       RequestInit.headers :=
         if (0 <? List.length (Object_keys h))%nat then Some 0%nat else None;
       RequestInit.body := None |} in
  if negb (HttpMethod_eqb (method st) GET) && negb (HttpMethod_eqb (method st) HEAD)
  then
    if String.eqb (bodyType st) "json" && truthy (bodyContent st)
    then (RequestInit.with_body opts (BodyText (bodyContent st)),
          [obj_set h "Content-Type" (contentTypeOr h)])
    else if String.eqb (bodyType st) "raw" && truthy (bodyContent st)
    then (RequestInit.with_body opts (BodyText (bodyContent st)), [h])
    else if String.eqb (bodyType st) "formdata"
    then (RequestInit.with_body opts (BodyFormData []), [h])
    else (opts, [h])
  else (opts, [h]).
Proof.
  cbv zeta. unfold materialize, buildFetchOptions.
  erewrite bind_eq by reflexivity.
  erewrite bind_eq by apply forEach_set_prop.
  rewrite (bind_eq _ _ _ tt [callerHeaders btoa st]).
  2:{ unfold callerHeaders.
      destruct (String.eqb (authType st) "bearer" && truthy (authToken st)); [reflexivity|].
      destruct (String.eqb (authType st) "basic" && truthy (authToken st)); [reflexivity|].
      destruct (String.eqb (authType st) "apikey" && truthy (authToken st)); reflexivity. }
  erewrite bind_eq by reflexivity.
  destruct (negb (HttpMethod_eqb (method st) GET) && negb (HttpMethod_eqb (method st) HEAD));
    [|destruct (callerHeaders btoa st); reflexivity].
  destruct (String.eqb (bodyType st) "json" && truthy (bodyContent st)).
  { erewrite bind_eq by reflexivity. erewrite bind_eq by reflexivity.
    destruct (callerHeaders btoa st); reflexivity. }
  destruct (String.eqb (bodyType st) "raw" && truthy (bodyContent st));
    [destruct (callerHeaders btoa st); reflexivity|].
  destruct (String.eqb (bodyType st) "formdata");
    destruct (callerHeaders btoa st); reflexivity.
Qed.

(** The header object [fetch] receives: none while no header row and no
    authentication wrote a property; otherwise the caller's object, with
    the content type of a JSON body written to it. *)
Lemma sentHeaders_materialize (btoa : string -> string) (st : LoadTestingState) :
  sentHeaders (materialize btoa st) =
  match callerHeaders btoa st with
  | [] => None
  | h =>
      Some (if negb (HttpMethod_eqb (method st) GET)
               && negb (HttpMethod_eqb (method st) HEAD)
               && (String.eqb (bodyType st) "json" && truthy (bodyContent st))
            then obj_set h "Content-Type" (contentTypeOr h) else h)
  end.
Proof.
  rewrite materialize_eq. cbv zeta. unfold sentHeaders.
  destruct (negb (HttpMethod_eqb (method st) GET) && negb (HttpMethod_eqb (method st) HEAD));
    [|destruct (callerHeaders btoa st); reflexivity].
  destruct (String.eqb (bodyType st) "json" && truthy (bodyContent st));
    [destruct (callerHeaders btoa st); reflexivity|].
  destruct (String.eqb (bodyType st) "raw" && truthy (bodyContent st));
    [destruct (callerHeaders btoa st); reflexivity|].
  destruct (String.eqb (bodyType st) "formdata");
    destruct (callerHeaders btoa st); reflexivity.
Qed.

(** X8. A GET or HEAD request never carries a body, whatever the body fields
    hold, and its headers are the caller's, with no content type added. *)
Theorem get_and_head_carry_no_body (btoa : string -> string) (st : LoadTestingState) :
  method st = GET \/ method st = HEAD ->
  let res := materialize btoa st in
  RequestInit.body (fst res) = None /\
  RequestInit.method (fst res) = method st /\
  sentHeaders res =
    match callerHeaders btoa st with [] => None | h => Some h end.
Proof.
  intros HM res.
  assert (M : negb (HttpMethod_eqb (method st) GET)
              && negb (HttpMethod_eqb (method st) HEAD) = false)
    by (destruct HM as [-> | ->]; reflexivity).
  unfold res. rewrite sentHeaders_materialize, materialize_eq. cbv zeta.
  rewrite M. cbn [fst andb RequestInit.body RequestInit.method].
  repeat split; reflexivity.
Qed.

Lemma get_and_head_carry_no_body_witness :
  let res := materialize (fun s => s)
               (with_rows sampleState [row "Accept" "text/html" true]) in
  RequestInit.body (fst res) = None /\
  RequestInit.method (fst res) = GET /\
  sentHeaders res = Some [("Accept", "text/html")].
Proof.
  apply (get_and_head_carry_no_body (fun s => s)
           (with_rows sampleState [row "Accept" "text/html" true])).
  left. reflexivity.
Defined.

(** X9. With a non-empty token the authentication header is sent, and it wins
    over a header row of the same name: [Authorization: Bearer <token>],
    [Authorization: Basic <btoa(token)>] or [X-API-Key: <token>]. *)
Theorem auth_header_sent (btoa : string -> string) (st : LoadTestingState)
    (token : string) :
  token <> "" ->
  (exists sent,
      sentHeaders (materialize btoa (with_auth st "bearer" token)) = Some sent /\
      obj_get sent "Authorization" = Some ("Bearer " ++ token)) /\
  (exists sent,
      sentHeaders (materialize btoa (with_auth st "basic" token)) = Some sent /\
      obj_get sent "Authorization" = Some ("Basic " ++ btoa token)) /\
  (exists sent,
      sentHeaders (materialize btoa (with_auth st "apikey" token)) = Some sent /\
      obj_get sent "X-API-Key" = Some token).
Proof.
  intros N. pose proof (truthy_true token N) as T.
  assert (K : forall st' k v h0,
             callerHeaders btoa st' = obj_assign h0 k v -> k <> "Content-Type" ->
             exists sent, sentHeaders (materialize btoa st') = Some sent /\
                          obj_get sent k = Some v).
  { intros st' k v h0 E NK. rewrite sentHeaders_materialize, E.
    destruct (obj_assign h0 k v) as [|kv h'] eqn:A; [apply obj_assign_nonempty in A; contradiction|].
    eexists. split; [reflexivity|].
    destruct (_ && _); [rewrite obj_get_set_other by exact NK|];
      rewrite <- A; apply obj_get_assign. }
  split; [|split]; eapply K;
    try (unfold callerHeaders, with_auth;
         cbn [authType authToken headers String.eqb Ascii.eqb Bool.eqb andb];
         rewrite T; reflexivity);
    discriminate.
Qed.

Lemma auth_header_sent_witness :
  (exists sent,
      sentHeaders (materialize (fun s => s)
        (with_auth (with_rows sampleState [row "Authorization" "mine" true])
                   "bearer" "t0k")) = Some sent /\
      obj_get sent "Authorization" = Some "Bearer t0k") /\
  (exists sent,
      sentHeaders (materialize (fun s => s)
        (with_auth (with_rows sampleState [row "Authorization" "mine" true])
                   "basic" "t0k")) = Some sent /\
      obj_get sent "Authorization" = Some "Basic t0k") /\
  (exists sent,
      sentHeaders (materialize (fun s => s)
        (with_auth (with_rows sampleState [row "Authorization" "mine" true])
                   "apikey" "t0k")) = Some sent /\
      obj_get sent "X-API-Key" = Some "t0k").
Proof.
  apply (auth_header_sent (fun s => s)
           (with_rows sampleState [row "Authorization" "mine" true]) "t0k").
  discriminate.
Defined.

(** X10. A content type of the caller's is kept for a JSON body: the default
    [application/json] does not replace it. *)
Theorem json_content_type_kept (btoa : string -> string) (st : LoadTestingState)
    (v : string) :
  method st <> GET -> method st <> HEAD ->
  bodyType st = "json" -> bodyContent st <> "" ->
  obj_get (callerHeaders btoa st) "Content-Type" = Some v -> v <> "" ->
  exists sent, sentHeaders (materialize btoa st) = Some sent /\
               obj_get sent "Content-Type" = Some v.
Proof.
  intros HG HH HT HB HC HV. rewrite sentHeaders_materialize.
  destruct (callerHeaders btoa st) as [|kv h'] eqn:Eh; [discriminate|].
  eexists. split; [reflexivity|].
  destruct (_ && _).
  - unfold contentTypeOr. rewrite HC, (truthy_true v HV). apply obj_get_set. discriminate.
  - exact HC.
Qed.

Lemma json_content_type_kept_witness :
  exists sent,
    sentHeaders (materialize (fun s => s)
      (with_rows bareJsonPost [row "Content-Type" "application/ld+json" true]))
    = Some sent /\
    obj_get sent "Content-Type" = Some "application/ld+json".
Proof.
  apply (json_content_type_kept (fun s => s)
           (with_rows bareJsonPost [row "Content-Type" "application/ld+json" true]));
    (reflexivity || discriminate).
Defined.

Lemma json_content_type_default_witness :
  exists sent,
    sentHeaders (materialize (fun s => s)
      (with_rows bareJsonPost [row "Accept" "*/*" true])) = Some sent /\
    obj_get sent "Content-Type" = Some "application/json".
Proof.
  apply (json_content_type_default (fun s => s)
           (with_rows bareJsonPost [row "Accept" "*/*" true]));
    (reflexivity || discriminate).
Defined.

(** X12. No header name is sent twice: a row or an authentication header with
    the name of an earlier row replaces its value. *)
Theorem sent_headers_have_distinct_names (btoa : string -> string)
    (st : LoadTestingState) (sent : Obj) :
  sentHeaders (materialize btoa st) = Some sent -> NoDup (Object_keys sent).
Proof.
  rewrite sentHeaders_materialize. intros E.
  pose proof (callerHeaders_NoDup btoa st) as H.
  destruct (callerHeaders btoa st) as [|kv h']; [discriminate|].
  injection E as <-.
  destruct (_ && _); [apply Object_keys_set_NoDup|]; exact H.
Qed.

Lemma sent_headers_have_distinct_names_witness :
  NoDup (Object_keys [("Accept", "b"); ("Authorization", "Bearer t0k")]).
Proof.
  apply (sent_headers_have_distinct_names (fun s => s)
           (with_auth
              (with_rows sampleState
                 [row "Accept" "a" true; row "Authorization" "mine" true;
                  row "Accept" "b" true])
              "bearer" "t0k")).
  reflexivity.
Defined.

(** X13. Without an authentication token, every header sent, the content type
    apart, carries the value of the last enabled row of that name; a name
    with no such row is not sent. *)
Theorem last_enabled_row_wins (btoa : string -> string) (st : LoadTestingState)
    (k : string) (sent : Obj) :
  authToken st = "" -> k <> "Content-Type" -> k <> "__proto__" ->
  sentHeaders (materialize btoa st) = Some sent ->
  obj_get sent k
  = option_map KeyValuePair.value
      (find (fun p => String.eqb (KeyValuePair.key p) k)
            (rev (activeRows (headers st)))).
Proof.
  intros HA NC NP. rewrite sentHeaders_materialize. intros E.
  assert (G : obj_get (callerHeaders btoa st) k
              = option_map KeyValuePair.value
                  (find (fun p => String.eqb (KeyValuePair.key p) k)
                        (rev (activeRows (headers st))))).
  { unfold callerHeaders. rewrite HA. change (truthy "") with false.
    rewrite !andb_false_r. rewrite obj_get_rows by exact NP.
    unfold activeRows. destruct (find _ _); reflexivity. }
  destruct (callerHeaders btoa st) as [|kv h']; [discriminate|].
  injection E as <-.
  destruct (_ && _); [rewrite obj_get_set_other by exact NC|]; exact G.
Qed.

Lemma last_enabled_row_wins_witness :
  obj_get [("Accept", "b"); ("X-Id", "1")] "Accept" = Some "b".
Proof.
  apply (last_enabled_row_wins (fun s => s)
           (with_rows sampleState
              [row "Accept" "a" true; row "X-Id" "1" true; row "Accept" "b" true;
               row "Accept" "c" false])
           "Accept" [("Accept", "b"); ("X-Id", "1")]);
    (reflexivity || discriminate).
Defined.

(** ** The request URL ([buildUrl]) *)

Lemma prefix_empty (s : string) : String.prefix "" s = true.
Proof. destruct s; reflexivity. Qed.

Lemma prefix_app_l (sub s t : string) :
  String.prefix sub s = true -> String.prefix sub (s ++ t) = true.
Proof.
  revert s. induction sub as [|a sub IH]; intros s H; [apply prefix_empty|].
  destruct s as [|b s]; [discriminate|]. simpl in *.
  destruct (ascii_dec a b); [apply IH, H | discriminate].
Qed.

Lemma includes_app_l (s t sub : string) :
  includes s sub = true -> includes (s ++ t) sub = true.
Proof.
  induction s as [|a s IH]; intros H.
  - destruct sub; [|discriminate]. destruct t; reflexivity.
  - change (String a s ++ t) with (String a (s ++ t)).
    cbn [includes] in *.
    destruct (String.prefix sub (String a s)) eqn:P.
    + apply (prefix_app_l sub (String a s) t) in P.
      change (String a s ++ t) with (String a (s ++ t)) in P. rewrite P. reflexivity.
    + destruct (String.prefix sub (String a (s ++ t))); [reflexivity | apply IH, H].
Qed.

Lemma includes_app_r (s t sub : string) :
  includes t sub = true -> includes (s ++ t) sub = true.
Proof.
  intros H. induction s as [|a s IH]; [exact H|].
  change (String a s ++ t) with (String a (s ++ t)). cbn [includes].
  destruct (String.prefix sub (String a (s ++ t))); [reflexivity | exact IH].
Qed.

Lemma includes_char (c : ascii) (s : string) :
  includes s (String c "") = negb (count_char c s =? 0)%nat.
Proof.
  induction s as [|a s IH]; [reflexivity|].
  cbn [includes String.prefix count_char].
  destruct (ascii_dec c a) as [<- | N].
  - rewrite Ascii.eqb_refl, prefix_empty. reflexivity.
  - destruct (Ascii.eqb_spec a c) as [E | _]; [congruence|]. exact IH.
Qed.

Lemma count_char_app (c : ascii) (s t : string) :
  count_char c (s ++ t) = (count_char c s + count_char c t)%nat.
Proof. induction s as [|a s IH]; simpl; [reflexivity | rewrite IH; lia]. Qed.

Lemma prefix_self_app (s t : string) : String.prefix s (s ++ t) = true.
Proof.
  induction s as [|a s IH]; [apply prefix_empty|]. simpl.
  destruct (ascii_dec a a); [exact IH | contradiction].
Qed.

(** X14. The URL that is requested starts with the URL of the form; without an
    active parameter it is that URL, and it contains a question mark
    exactly when the URL of the form has one or a parameter is active. *)
Theorem buildUrl_query_mark (encodeURIComponent : string -> string)
    (url : string) (params : list KeyValuePair.t) :
  let u := buildUrl encodeURIComponent url params in
  String.prefix url u = true /\
  (activeRows params = [] -> u = url) /\
  includes u "?" = includes url "?" || negb (List.length (activeRows params) =? 0)%nat.
Proof.
  cbv zeta. unfold buildUrl. fold (activeRows params).
  destruct (activeRows params) as [|p ps].
  - cbn [List.length Nat.ltb Nat.leb Nat.eqb negb]. rewrite orb_false_r.
    split; [|split; reflexivity].
    induction url as [|a u IH]; [reflexivity|]. simpl.
    destruct (ascii_dec a a); [exact IH | contradiction].
  - cbn [List.length Nat.ltb Nat.leb Nat.eqb negb]. rewrite orb_true_r.
    split; [apply prefix_self_app|]. split; [discriminate|].
    destruct (includes url "?") eqn:I.
    + apply includes_app_l, I.
    + apply includes_app_r. rewrite includes_char. reflexivity.
Qed.

Lemma count_char_pairs (enc : string -> string) (c : ascii)
    (l : list KeyValuePair.t) :
  (forall s, count_char c (enc s) = 0%nat) ->
  count_char c (String.concat "&" (map (queryPair enc) l))
  = (List.length l * (if Ascii.eqb "=" c then 1 else 0)
     + (List.length l - 1) * (if Ascii.eqb "&" c then 1 else 0))%nat.
Proof.
  intros H.
  assert (P : forall p, count_char c (queryPair enc p)
                        = if Ascii.eqb "=" c then 1%nat else 0%nat).
  { intros p. unfold queryPair. rewrite !count_char_app, !H. cbn [count_char].
    destruct (Ascii.eqb "=" c); reflexivity. }
  induction l as [|p l IH]; [reflexivity|].
  destruct l as [|p' l].
  - cbn [map String.concat List.length]. rewrite P. lia.
  - change (String.concat "&" (map (queryPair enc) (p :: p' :: l)))
      with (queryPair enc p ++ "&" ++ String.concat "&" (map (queryPair enc) (p' :: l))).
    rewrite !count_char_app, P, IH. cbn [List.length count_char].
    destruct (Ascii.eqb "=" c), (Ascii.eqb "&" c); lia.
Qed.

(** X15. With an encoder that emits none of [?], [&] and [=], as the platform's
    does, the URL gains one [key=value] pair per active parameter, each
    behind one separator, and the separators are all [&] when the URL of
    the form has a question mark already; otherwise the first is the one
    question mark of the result. *)
Theorem buildUrl_separators (encodeURIComponent : string -> string)
    (url : string) (params : list KeyValuePair.t) :
  (forall s, count_char "?" (encodeURIComponent s) = 0%nat) ->
  (forall s, count_char "&" (encodeURIComponent s) = 0%nat) ->
  (forall s, count_char "=" (encodeURIComponent s) = 0%nat) ->
  let u := buildUrl encodeURIComponent url params in
  let n := List.length (activeRows params) in
  count_char "=" u = (count_char "=" url + n)%nat /\
  (count_char "?" u + count_char "&" u
   = count_char "?" url + count_char "&" url + n)%nat /\
  count_char "?" u
  = (count_char "?" url + if includes url "?" then 0 else Nat.min 1 n)%nat.
Proof.
  intros Hq Ha He. cbv zeta. unfold buildUrl. fold (activeRows params).
  destruct (activeRows params) as [|p ps] eqn:A.
  - cbn [List.length Nat.ltb Nat.leb Nat.min]. destruct (includes url "?"); lia.
  - rewrite <- A.
    assert (N : (1 <= List.length (activeRows params))%nat) by (rewrite A; simpl; lia).
    replace (0 <? List.length (activeRows params))%nat with true
      by (symmetry; apply Nat.ltb_lt; lia).
    rewrite !count_char_app.
    rewrite (count_char_pairs _ "=" _ He), (count_char_pairs _ "?" _ Hq),
      (count_char_pairs _ "&" _ Ha).
    cbn [Ascii.eqb Bool.eqb]. 
    pose proof (includes_char "?" url) as I.
    destruct (includes url "?"); cbn [count_char Ascii.eqb Bool.eqb].
    + lia.
    + symmetry in I. apply negb_false_iff, Nat.eqb_eq in I. lia.
Qed.

Lemma unreserved_not (a c : ascii) :
  unreserved c = false -> unreserved a = true -> Ascii.eqb a c = false.
Proof.
  intros Hc Ha. destruct (Ascii.eqb_spec a c) as [-> | _]; [congruence | reflexivity].
Qed.

Lemma hexDigit_unreserved (n : nat) : unreserved (hexDigit n) = true.
Proof. do 17 (destruct n as [|n]; [reflexivity|]). destruct n; reflexivity. Qed.

(** The percent-encoding emits unreserved characters and [%] only. *)
Lemma percentEncode_avoids (c : ascii) (s : string) :
  unreserved c = false -> c <> "%"%char -> count_char c (percentEncode s) = 0%nat.
Proof.
  intros Hc Hp. induction s as [|a s IH]; [reflexivity|].
  cbn [percentEncode]. destruct (unreserved a) eqn:U; cbn [count_char].
  - rewrite (unreserved_not a c Hc U), IH. reflexivity.
  - rewrite !(unreserved_not _ c Hc (hexDigit_unreserved _)), IH.
    destruct (Ascii.eqb_spec "%"%char c); [congruence | reflexivity].
Qed.

Lemma buildUrl_separators_witness :
  let u := buildUrl percentEncode "http://api.test/items?page=2"
             [row "q" "a&b=c?" true; row "" "x" true; row "off" "1" false;
              row "sort by" "name" true] in
  count_char "=" u = 3%nat /\
  (count_char "?" u + count_char "&" u = 3)%nat /\
  count_char "?" u = 1%nat.
Proof.
  apply (buildUrl_separators percentEncode "http://api.test/items?page=2"
           [row "q" "a&b=c?" true; row "" "x" true; row "off" "1" false;
            row "sort by" "name" true]);
    intros s; apply percentEncode_avoids; (reflexivity || discriminate).
Defined.

(** ** The run as a sequence of ticks *)

(** The ticks of a list, one after the other. *)
Lemma loop_ticks (st : LoadTestingState) (env : Env) (n t : nat) (rs : RunState) :
  exists j, (j <= n)%nat /\
    loop st env n t rs = fold_left (fun rs t => tick st env t rs) (seq t j) rs /\
    (forall i, (i < j)%nat -> cancelRef env (t + i) = false) /\
    ((j < n)%nat -> cancelRef env (t + j) = true).
Proof.
  revert t rs. induction n as [|n IH]; intros t rs.
  - exists 0%nat. split; [lia|]. split; [reflexivity|]. split; intros; lia.
  - cbn [loop]. destruct (cancelRef env t) eqn:C.
    + exists 0%nat. split; [lia|]. split; [reflexivity|]. split; [intros; lia|].
      intros _. rewrite Nat.add_0_r. exact C.
    + destruct (IH (S t) (tick st env t rs)) as (j & Hj & E & F & L).
      exists (S j). split; [lia|]. split; [exact E|]. split.
      * intros [|i] Hi; [rewrite Nat.add_0_r; exact C|].
        rewrite Nat.add_succ_r. apply (F i). lia.
      * intros Hlt. rewrite Nat.add_succ_r. apply L. lia.
Qed.

Lemma ticks_invariant (st : LoadTestingState) (env : Env) (P : RunState -> Prop)
    (ts : list nat) (rs : RunState) :
  (forall t rs, In t ts -> P rs -> P (tick st env t rs)) ->
  P rs -> P (fold_left (fun rs t => tick st env t rs) ts rs).
Proof.
  revert rs. induction ts as [|t ts IH]; intros rs H H0; [exact H0|].
  cbn [fold_left]. apply IH.
  - intros t' rs' I. apply H. right. exact I.
  - apply H; [left; reflexivity | exact H0].
Qed.

Lemma ticks_extend (st : LoadTestingState) (env : Env) (ts : list nat) (rs : RunState) :
  let rs' := fold_left (fun rs t => tick st env t rs) ts rs in
  (exists ms, metrics rs' = (metrics rs ++ ms)%list /\
              map MetricPoint.time ms = map (fun t => Js.int (Z.of_nat t + 1)) ts) /\
  (exists ls, allTimes rs' = (allTimes rs ++ ls)%list) /\
  (totalReqs rs <= totalReqs rs')%Z /\ (errors rs <= errors rs')%Z.
Proof.
  cbv zeta. revert rs. induction ts as [|t ts IH]; intros rs.
  - split; [exists []; rewrite app_nil_r; split; reflexivity|].
    split; [exists []; rewrite app_nil_r; reflexivity|]. cbn. lia.
  - cbn [fold_left]. destruct (IH (tick st env t rs)) as ((ms & M & T) & (ls & A) & R & E).
    split; [|split; [|split]].
    + eexists. split.
      * rewrite M. unfold tick. cbn [metrics]. rewrite <- app_assoc. reflexivity.
      * cbn [app map MetricPoint.time]. rewrite T. reflexivity.
    + eexists. rewrite A. unfold tick. cbn [allTimes]. rewrite <- app_assoc. reflexivity.
    + eapply Z.le_trans; [|exact R]. unfold tick. cbn [totalReqs]. lia.
    + eapply Z.le_trans; [|exact E]. unfold tick, rejected_count. cbn [errors]. lia.
Qed.

(** X16. A run hands out one metric point per tick it went through, numbered
    1, 2, ... in order.  It goes through the ticks up to the first one at
    which the stop flag is set: none of the ticks behind a point was
    cancelled, and a run with fewer points than [duration] met the flag at
    the next tick.  A run that is never stopped has [duration] points. *)
Theorem run_emits_one_point_per_tick (st : LoadTestingState) (env : Env) :
  let ms := fst (runTest st env) in
  let k := List.length ms in
  (k <= Z.to_nat (duration st))%nat /\
  map MetricPoint.time ms = map (fun t => Js.int (Z.of_nat t + 1)) (seq 0 k) /\
  (forall t, (t < k)%nat -> cancelRef env t = false) /\
  ((k < Z.to_nat (duration st))%nat -> cancelRef env k = true) /\
  ((forall t, cancelRef env t = false) -> k = Z.to_nat (duration st)).
Proof.
  cbv zeta. unfold runTest, finalRun. cbn [fst].
  destruct (loop_ticks st env (Z.to_nat (duration st)) 0 initialRun)
    as (j & Hj & -> & F & L).
  destruct (ticks_extend st env (seq 0 j) initialRun) as ((ms & -> & T) & _).
  cbn [initialRun metrics app].
  assert (K : List.length ms = j).
  { rewrite <- (length_map MetricPoint.time), T, length_map, length_seq. reflexivity. }
  rewrite K. repeat split.
  - exact Hj.
  - exact T.
  - exact F.
  - exact L.
  - intros N. destruct (Nat.lt_ge_cases j (Z.to_nat (duration st))) as [Lt | Ge]; [|lia].
    specialize (L Lt). rewrite N in L. discriminate L.
Qed.

(** X17. Stopping a run cuts it short and changes nothing else: the metric
    points and the latency history of the stopped run are the beginning of
    those the same requests give when the run is left alone, and it has
    counted no more requests and no more errors. *)
Theorem stopped_run_is_prefix (st : LoadTestingState) (env : Env) :
  let part := finalRun st env in
  let full := finalRun st (never_cancelled env) in
  (exists ms, metrics full = (metrics part ++ ms)%list) /\
  (exists ls, allTimes full = (allTimes part ++ ls)%list) /\
  (totalReqs part <= totalReqs full)%Z /\ (errors part <= errors full)%Z.
Proof.
  cbv zeta. unfold finalRun. set (n := Z.to_nat (duration st)).
  destruct (loop_ticks st env n 0 initialRun) as (j & Hj & -> & _).
  destruct (loop_ticks st (never_cancelled env) n 0 initialRun) as (j' & Hj' & -> & _ & L).
  assert (J : j' = n).
  { destruct (Nat.lt_ge_cases j' n) as [Lt | Ge]; [|lia]. discriminate (L Lt). }
  subst j'.
  change (fun rs t => tick st (never_cancelled env) t rs)
    with (fun rs t => tick st env t rs).
  assert (S : seq 0 n = (seq 0 j ++ seq (0 + j) (n - j))%list)
    by (rewrite <- seq_app; f_equal; lia).
  rewrite S, fold_left_app.
  destruct (ticks_extend st env (seq (0 + j) (n - j))
              (fold_left (fun rs t => tick st env t rs) (seq 0 j) initialRun))
    as ((ms & M & _) & A & T & E).
  split; [exists ms; exact M|]. split; [exact A|]. split; assumption.
Qed.

Lemma resolved_rejected_length (rs : list FetchResult) :
  (Z.of_nat (List.length (resolved_times rs)) + rejected_count rs
   = Z.of_nat (List.length rs))%Z.
Proof.
  unfold rejected_count. induction rs as [|[d|] rs IH]; cbn [resolved_times flat_map filter app List.length].
  - reflexivity.
  - fold (resolved_times rs). lia.
  - fold (resolved_times rs). cbn [List.length]. lia.
Qed.

Lemma rejected_count_range (rs : list FetchResult) :
  (0 <= rejected_count rs <= Z.of_nat (List.length rs))%Z.
Proof.
  pose proof (resolved_rejected_length rs). unfold rejected_count in *. lia.
Qed.

Lemma tick_counted st env t rs : counted rs -> counted (tick st env t rs).
Proof.
  intros [A B]. unfold counted, tick. cbn [allTimes totalReqs errors].
  rewrite length_app, Nat2Z.inj_add.
  pose proof (resolved_rejected_length (tickOutcomes st env t)).
  pose proof (rejected_count_range (tickOutcomes st env t)). lia.
Qed.

Lemma finalRun_counted st env : counted (finalRun st env).
Proof.
  unfold finalRun.
  destruct (loop_ticks st env (Z.to_nat (duration st)) 0 initialRun) as (j & _ & -> & _).
  apply ticks_invariant.
  - intros t rs _. apply tick_counted.
  - split; cbn; lia.
Qed.

Lemma ticks_total (st : LoadTestingState) (env : Env) (ts : list nat) (rs : RunState) :
  totalReqs (fold_left (fun rs t => tick st env t rs) ts rs)
  = (totalReqs rs + zsum (map (fun t => Z.of_nat (ToLength (tickUsers st t))) ts))%Z.
Proof.
  revert rs. induction ts as [|t ts IH]; intros rs.
  - cbn. lia.
  - cbn [fold_left map]. rewrite IH. unfold tick at 1. cbn [totalReqs].
    unfold tickOutcomes. rewrite length_map, length_seq.
    change (zsum (?x :: ?l)) with (x + zsum l)%Z. lia.
Qed.

(** X27. Every request counts once: the total of the summary is the sum,
    over the ticks the run went through, of the number of users of the
    tick, whether their requests succeeded or failed. *)
Theorem run_counts_every_request (st : LoadTestingState) (env : Env) :
  let k := List.length (fst (runTest st env)) in
  TestSummary.totalRequests (snd (runTest st env))
  = zsum (map (fun t => Z.of_nat (ToLength (tickUsers st t))) (seq 0 k)).
Proof.
  cbv zeta. unfold runTest, finalRun. cbn [fst snd].
  destruct (loop_ticks st env (Z.to_nat (duration st)) 0 initialRun) as (j & _ & -> & _).
  destruct (ticks_extend st env (seq 0 j) initialRun) as ((ms & E & T) & _).
  assert (K : List.length ms = j).
  { rewrite <- (length_map MetricPoint.time), T, length_map, length_seq. reflexivity. }
  rewrite E. cbn [initialRun metrics app]. rewrite K.
  unfold summarize. cbn [TestSummary.totalRequests].
  rewrite ticks_total. cbn [initialRun totalReqs]. lia.
Qed.

(** ** What every run reports *)

(** X18. The number of successes in the summary is the number of latencies in
    the history of the run, the number of errors lies between zero and the
    number of requests, and a run without a success reports 0 for the
    average, the minimum, the maximum, p95 and p99. *)
Theorem run_counts_match_history (st : LoadTestingState) (env : Env) :
  let s := snd (runTest st env) in
  TestSummary.successCount s = Z.of_nat (List.length (allTimes (finalRun st env))) /\
  (0 <= TestSummary.errorCount s <= TestSummary.totalRequests s)%Z /\
  (TestSummary.errorCount s = TestSummary.totalRequests s ->
   TestSummary.avgResponseTime s = Js.int 0 /\
   TestSummary.minResponseTime s = 0%Z /\ TestSummary.maxResponseTime s = 0%Z /\
   TestSummary.p95 s = Some 0%Z /\ TestSummary.p99 s = Some 0%Z).
Proof.
  cbv zeta. unfold runTest. cbn [snd].
  destruct (finalRun_counted st env) as [A B].
  unfold summarize.
  cbn [TestSummary.successCount TestSummary.errorCount TestSummary.totalRequests
       TestSummary.avgResponseTime TestSummary.minResponseTime
       TestSummary.maxResponseTime TestSummary.p95 TestSummary.p99].
  split; [lia|]. split; [exact B|]. intros E.
  assert (N : allTimes (finalRun st env) = []).
  { destruct (allTimes (finalRun st env)); [reflexivity | simpl in A; lia]. }
  rewrite N. repeat split; reflexivity.
Qed.

Lemma round_Fin (q : Q) : Math.round (Fin q) = Js.int (Qfloor (q + (1 # 2))).
Proof. reflexivity. Qed.

Lemma round_int (z : Z) : Math.round (Js.int z) = Js.int z.
Proof.
  unfold Js.int. rewrite round_Fin. unfold Js.int. do 2 f_equal.
  apply Qfloor_unique; [|rewrite inject_Z_plus; change (inject_Z 1) with 1]; lra.
Qed.

(** [Math.round(x * k) / 100] between two whole multiples. *)
Lemma round_scaled_bounds (x : Q) (k lo hi : Z) :
  (0 <= k)%Z -> safe (k * lo) -> safe (k * hi) ->
  inject_Z lo <= x <= inject_Z hi ->
  exists q, round_scaled (Fin x) k = Fin q /\
            round53 (inject_Z (k * lo) / 100) <= q /\
            q <= round53 (inject_Z (k * hi) / 100).
Proof.
  intros Hk Slo Shi [Hlo Hhi]. unfold round_scaled. rewrite mul_Fin_int, round_Fin.
  rewrite div_int by lia. eexists. split; [reflexivity|].
  pose proof (inject_Z_nonneg k Hk) as Kq.
  assert (Y1 : inject_Z (k * lo) <= round53 (x * inject_Z k)).
  { apply round53_ge_int; [exact Slo|]. rewrite inject_Z_mult. nra. }
  assert (Y2 : round53 (x * inject_Z k) <= inject_Z (k * hi)).
  { apply round53_le_int; [exact Shi|]. rewrite inject_Z_mult. nra. }
  set (y := round53 (x * inject_Z k)) in *.
  assert (K1 : (k * lo <= Qfloor (y + (1 # 2)))%Z).
  { rewrite <- (Qfloor_Z (k * lo)). apply Qfloor_resp_le. lra. }
  assert (K2 : (Qfloor (y + (1 # 2)) <= k * hi)%Z).
  { assert (L : inject_Z (Qfloor (y + (1 # 2))) < inject_Z (k * hi + 1)).
    { eapply Qle_lt_trans; [apply Qfloor_le|].
      rewrite inject_Z_plus. change (inject_Z 1) with 1. lra. }
    rewrite <- Zlt_Qlt in L. lia. }
  set (K := Qfloor (y + (1 # 2))) in *.
  rewrite Zle_Qle in K1, K2. change (inject_Z 100) with 100.
  split; apply round53_mono; unfold Qdiv; change (/ 100) with (1 # 100); lra.
Qed.

Lemma round53_int_quot (z k : Z) :
  (0 < k)%Z -> safe z -> round53 (inject_Z (k * z) / inject_Z k) = inject_Z z.
Proof.
  intros Hk Sz. rewrite (round53_comp _ (inject_Z z)).
  - apply round53_Z. exact Sz.
  - rewrite inject_Z_mult. pose proof (inject_Z_pos k Hk). field. lra.
Qed.

(** The error rate of a metric point: a percentage. *)
Lemma errorRate_percent (e T : Z) :
  (0 <= e <= T)%Z ->
  exists q, (if (0 <? T)%Z then round_scaled (Js.int e / Js.int T)%js 10000
             else Js.int 0) = Fin q /\ 0 <= q <= 100.
Proof.
  intros H. destruct (Z.ltb_spec 0 T) as [P | N].
  - rewrite div_int by lia.
    pose proof (inject_Z_nonneg e ltac:(lia)) as Eq. pose proof (inject_Z_pos T P) as Tq.
    assert (X : inject_Z 0 <= round53 (inject_Z e / inject_Z T) <= inject_Z 1).
    { split.
      - apply round53_nonneg. apply Qle_shift_div_l; [exact Tq | lra].
      - apply round53_le_int; [unfold safe; simpl; lia|].
        change (inject_Z 1) with 1. apply Qle_shift_div_r; [exact Tq|].
        rewrite Qmult_1_l, <- Zle_Qle. lia. }
    destruct (round_scaled_bounds _ 10000 0 1 ltac:(lia) ltac:(unfold safe; simpl; lia)
                ltac:(unfold safe; simpl; lia) X) as (q & -> & L & U).
    exists q. split; [reflexivity|].
    assert (L' : round53 (inject_Z (10000 * 0) / 100) == 0) by (vm_compute; reflexivity).
    assert (U' : round53 (inject_Z (10000 * 1) / 100) == 100) by (vm_compute; reflexivity).
    rewrite L' in L. rewrite U' in U. split; assumption.
  - exists 0. split; [reflexivity | lra].
Qed.

(** The cumulative request rate: the requests so far over the seconds so
    far, between the bounds of the requests per second. *)
Lemma rps_bounds (T n lo hi : Z) :
  (0 < n)%Z -> (n * lo <= T <= n * hi)%Z -> safe (100 * lo) -> safe (100 * hi) ->
  exists q, round_scaled (Js.int T / Js.int n)%js 100 = Fin q /\
            inject_Z lo <= q <= inject_Z hi.
Proof.
  intros Hn HT Slo Shi. rewrite div_int by lia.
  pose proof (inject_Z_pos n Hn) as Nq.
  assert (Slo' : safe lo) by (unfold safe in *; lia).
  assert (Shi' : safe hi) by (unfold safe in *; lia).
  assert (X : inject_Z lo <= round53 (inject_Z T / inject_Z n) <= inject_Z hi).
  { split.
    - apply round53_ge_int; [exact Slo'|]. apply Qle_shift_div_l; [exact Nq|].
      rewrite <- inject_Z_mult, <- Zle_Qle. lia.
    - apply round53_le_int; [exact Shi'|]. apply Qle_shift_div_r; [exact Nq|].
      rewrite <- inject_Z_mult, <- Zle_Qle. lia. }
  destruct (round_scaled_bounds _ 100 lo hi ltac:(lia) Slo Shi X) as (q & -> & L & U).
  exists q. split; [reflexivity|].
  change 100 with (inject_Z 100) in L, U.
  rewrite round53_int_quot in L, U by (assumption || lia).
  split; assumption.
Qed.

(** The rank [floor(n * c)] of a percentile lies in the list. *)
Lemma percentile_rank (c : Q) (l : list Z) :
  l <> [] -> 0 <= round53 c -> round53 c * (1 + (1 # 9007199254740992)) < 1 ->
  let i := Z.to_nat (Qfloor (round53 (inject_Z (Z.of_nat (List.length l)) * round53 c))) in
  (i < List.length l)%nat /\ percentile c l = nth_error l i.
Proof.
  intros Hl C0 C1. cbv zeta.
  set (n := Z.of_nat (List.length l)).
  assert (Hn : (1 <= n)%Z) by (unfold n; destruct l; [contradiction | simpl; lia]).
  pose proof (inject_Z_pos n ltac:(lia)) as Nq.
  assert (P0 : 0 <= inject_Z n * round53 c) by nra.
  pose proof (round53_upper _ P0) as U. pose proof (round53_nonneg _ P0) as L.
  set (y := round53 (inject_Z n * round53 c)) in *.
  assert (R : (0 <= Qfloor y < n)%Z).
  { split.
    - change 0%Z with (Qfloor 0). apply Qfloor_resp_le, L.
    - assert (A : inject_Z (Qfloor y) < inject_Z n).
      { eapply Qle_lt_trans; [apply Qfloor_le|]. nra. }
      rewrite <- Zlt_Qlt in A. exact A. }
  split.
  - apply Nat2Z.inj_lt. rewrite Z2Nat.id by lia. fold n. lia.
  - unfold percentile. destruct l as [|x l']; [contradiction|].
    unfold length_num. fold n. unfold Js.lit. rewrite mul_int_Fin, floor_round53.
    fold y. apply array_get_int. lia.
Qed.

Lemma sorted_nth_le (l : list Z) (i j : nat) (a b : Z) :
  StronglySorted Z.le l -> (i <= j)%nat ->
  nth_error l i = Some a -> nth_error l j = Some b -> (a <= b)%Z.
Proof.
  intros S. revert i j. induction S as [|x l S IH F]; intros i j Hij Ha Hb.
  - destruct i; discriminate.
  - destruct i as [|i], j as [|j]; cbn [nth_error] in *.
    + injection Ha as <-. injection Hb as <-. lia.
    + injection Ha as <-. rewrite Forall_forall in F. apply F.
      eapply nth_error_In, Hb.
    + lia.
    + apply (IH i j); [lia | assumption..].
Qed.

(** p95 and p99 of a sorted list: two of its elements, in this order. *)
Lemma percentiles_ordered (l : list Z) :
  StronglySorted Z.le l -> l <> [] ->
  exists a b i j, percentile (95 # 100) l = Some a /\ percentile (99 # 100) l = Some b /\
                  nth_error l i = Some a /\ nth_error l j = Some b /\
                  (i <= j < List.length l)%nat /\ (a <= b)%Z.
Proof.
  intros S Hl.
  destruct (percentile_rank (95 # 100) l Hl) as [A1 A2];
    [vm_compute; intros; discriminate | vm_compute; reflexivity |].
  destruct (percentile_rank (99 # 100) l Hl) as [B1 B2];
    [vm_compute; intros; discriminate | vm_compute; reflexivity |].
  set (n := inject_Z (Z.of_nat (List.length l))) in *.
  assert (Nq : 0 <= n) by (apply inject_Z_nonneg; lia).
  set (i := Z.to_nat (Qfloor (round53 (n * round53 (95 # 100))))) in *.
  set (j := Z.to_nat (Qfloor (round53 (n * round53 (99 # 100))))) in *.
  assert (IJ : (i <= j)%nat).
  { unfold i, j. apply Z2Nat.inj_le.
    - change 0%Z with (Qfloor 0). apply Qfloor_resp_le, round53_nonneg.
      apply Qmult_le_0_compat; [exact Nq | vm_compute; intros; discriminate].
    - change 0%Z with (Qfloor 0). apply Qfloor_resp_le, round53_nonneg.
      apply Qmult_le_0_compat; [exact Nq | vm_compute; intros; discriminate].
    - apply Qfloor_resp_le, round53_mono.
      assert (C : round53 (95 # 100) <= round53 (99 # 100))
        by (vm_compute; intros; discriminate).
      nra. }
  destruct (nth_error l i) as [a|] eqn:Ea; [|apply nth_error_None in Ea; lia].
  destruct (nth_error l j) as [b|] eqn:Eb; [|apply nth_error_None in Eb; lia].
  exists a, b, i, j. repeat split; try assumption; try lia.
  apply (sorted_nth_le l i j); assumption.
Qed.

Lemma fold_sum_nonneg (l : list Z) (q : Q) :
  Forall (fun x => (0 <= x)%Z) l -> 0 <= q ->
  exists q', fold_left (fun a b => (a + Js.int b)%js) l (Fin q) = Fin q' /\ 0 <= q'.
Proof.
  intros F. revert q. induction F as [|x l Hx F IH]; intros q Hq.
  - exists q. split; [reflexivity | exact Hq].
  - cbn [fold_left]. apply IH. apply round53_nonneg.
    pose proof (inject_Z_nonneg x Hx). lra.
Qed.

Lemma average_nonneg (l : list Z) :
  Forall (fun x => (0 <= x)%Z) l ->
  exists a, Math.round (average l) = Js.int a /\ (0 <= a)%Z.
Proof.
  intros F. destruct l as [|x l].
  - exists 0%Z. split; [reflexivity | lia].
  - unfold average, reduce_sum, length_num.
    destruct (fold_sum_nonneg (x :: l) 0 F ltac:(lra)) as (q & E & Hq).
    change (Js.int 0) with (Fin 0). rewrite E.
    unfold Js.int. rewrite div_int_Fin by (simpl; lia). rewrite round_Fin.
    eexists. split; [reflexivity|].
    change 0%Z with (Qfloor 0). apply Qfloor_resp_le.
    assert (0 <= round53 (q / inject_Z (Z.of_nat (List.length (x :: l))))).
    { apply round53_nonneg. apply Qle_shift_div_l; [apply inject_Z_pos; simpl; lia | lra]. }
    lra.
Qed.

Lemma round_scaled_nonneg (x : Q) (k : Z) :
  0 <= x -> (0 <= k)%Z -> exists q, round_scaled (Fin x) k = Fin q /\ 0 <= q.
Proof.
  intros Hx Hk. unfold round_scaled. rewrite mul_Fin_int, round_Fin.
  rewrite div_int by lia. eexists. split; [reflexivity|].
  pose proof (inject_Z_nonneg k Hk) as Kq.
  assert (Y : 0 <= round53 (x * inject_Z k))
    by (apply round53_nonneg, Qmult_le_0_compat; assumption).
  assert (K : (0 <= Qfloor (round53 (x * inject_Z k) + (1 # 2)))%Z).
  { change 0%Z with (Qfloor 0). apply Qfloor_resp_le. lra. }
  apply round53_nonneg. apply Qle_shift_div_l; [reflexivity|].
  rewrite Qmult_0_l. apply inject_Z_nonneg, K.
Qed.

Lemma tick_point (st : LoadTestingState) (env : Env) (t : nat) (rs : RunState) :
  counted rs ->
  exists point, metrics (tick st env t rs) = (metrics rs ++ [point])%list /\
                plottable point /\
                MetricPoint.activeUsers point = tickUsers st t /\
                MetricPoint.rps point
                = round_scaled (Js.int (totalReqs (tick st env t rs))
                                / Js.int (Z.of_nat t + 1))%js 100.
Proof.
  intros C. pose proof (tick_counted st env t rs C) as [_ C'].
  eexists. split; [unfold tick; cbn [metrics]; reflexivity|].
  split; [|split; reflexivity].
  unfold plottable.
  cbn [MetricPoint.avgResponseTime MetricPoint.p95 MetricPoint.p99
       MetricPoint.errorRate MetricPoint.rps].
  assert (V : Forall (fun x => (0 < x)%Z) (tickValid st env t)).
  { apply Forall_forall. intros x Hx. unfold tickValid in Hx.
    apply filter_In in Hx. destruct Hx as [_ Hx]. apply Z.ltb_lt, Hx. }
  split; [|split; [|split]].
  - apply average_nonneg. eapply Forall_impl; [|exact V]. intros; cbv beta in *; lia.
  - destruct (tickValid st env t) as [|v vs] eqn:E.
    + exists 0%Z, 0%Z. repeat split; lia.
    + rewrite <- E in *.
      assert (N : sort_asc (tickValid st env t) <> []).
      { intros N. pose proof (sort_asc_length (tickValid st env t)) as L.
        rewrite N, E in L. discriminate L. }
      destruct (percentiles_ordered _ (sort_asc_sorted (tickValid st env t)) N)
        as (a & b & i & j & -> & -> & Ia & _ & _ & AB).
      exists a, b. cbn [round_elem]. rewrite !round_int.
      repeat split; try lia.
      apply nth_error_In in Ia.
      apply (Permutation_in _ (sort_asc_perm _)) in Ia.
      rewrite Forall_forall in V. specialize (V a Ia). lia.
  - apply errorRate_percent.
    unfold tick in C'. cbn [errors totalReqs] in C'. exact C'.
  - rewrite div_int by lia. apply round_scaled_nonneg; [|lia].
    apply round53_nonneg. apply Qle_shift_div_l; [apply inject_Z_pos; lia|].
    rewrite Qmult_0_l. apply inject_Z_nonneg.
    unfold tick. cbn [totalReqs]. destruct C as [_ C]. lia.
Qed.

(** X19. Every metric point of every run can be drawn: its average, p95 and p99
    are whole numbers of milliseconds, not negative, with [p95 <= p99]; its
    error rate is a percentage between 0 and 100; and its request rate is
    not negative. *)
Theorem metric_points_plottable (st : LoadTestingState) (env : Env) :
  Forall plottable (fst (runTest st env)).
Proof.
  unfold runTest, finalRun. cbn [fst].
  destruct (loop_ticks st env (Z.to_nat (duration st)) 0 initialRun) as (j & _ & -> & _).
  apply (ticks_invariant st env (fun rs => counted rs /\ Forall plottable (metrics rs))).
  - intros t rs _ [C F]. split; [apply tick_counted, C|].
    destruct (tick_point st env t rs C) as (point & -> & P & _).
    apply Forall_app. split; [exact F | constructor; [exact P | constructor]].
  - split; [split; cbn; lia | constructor].
Qed.

(** X20. In the summary of a run with a success, p95 and p99 are latencies of
    the run, with [min <= p95 <= p99 <= max]. *)
Theorem summary_percentiles_ordered (st : LoadTestingState) (rs : RunState) :
  allTimes rs <> [] ->
  let s := summarize st rs in
  exists a b, TestSummary.p95 s = Some a /\ TestSummary.p99 s = Some b /\
              In a (allTimes rs) /\ In b (allTimes rs) /\
              (TestSummary.minResponseTime s <= a)%Z /\ (a <= b)%Z /\
              (b <= TestSummary.maxResponseTime s)%Z.
Proof.
  intros H. cbv zeta. unfold summarize.
  cbn [TestSummary.p95 TestSummary.p99 TestSummary.minResponseTime
       TestSummary.maxResponseTime].
  pose proof (sort_asc_sorted (allTimes rs)) as S.
  pose proof (sort_asc_perm (allTimes rs)) as P.
  assert (N : sort_asc (allTimes rs) <> []).
  { intros N. rewrite N in P. apply Permutation_nil in P. contradiction. }
  destruct (percentiles_ordered _ S N) as (a & b & i & j & -> & -> & Ia & Ib & IJ & AB).
  set (l := sort_asc (allTimes rs)) in *.
  exists a, b. split; [reflexivity|]. split; [reflexivity|].
  split; [apply (Permutation_in _ P), (nth_error_In _ _ Ia)|].
  split; [apply (Permutation_in _ P), (nth_error_In _ _ Ib)|].
  destruct (nth_error l 0) as [mn|] eqn:E0; [|apply nth_error_None in E0; lia].
  destruct (nth_error l (List.length l - 1)) as [mx|] eqn:E1;
    [|apply nth_error_None in E1; lia].
  split; [|split].
  - apply (sorted_nth_le l 0 i); (assumption || lia).
  - exact AB.
  - apply (sorted_nth_le l j (List.length l - 1)); (assumption || lia).
Qed.

Lemma summary_percentiles_ordered_witness :
  let s := snd (runTest sampleState sampleEnv) in
  exists a b, TestSummary.p95 s = Some a /\ TestSummary.p99 s = Some b /\
              In a [0; 120; 0; 120]%Z /\ In b [0; 120; 0; 120]%Z /\
              (TestSummary.minResponseTime s <= a)%Z /\ (a <= b)%Z /\
              (b <= TestSummary.maxResponseTime s)%Z.
Proof.
  apply (summary_percentiles_ordered sampleState (finalRun sampleState sampleEnv)).
  vm_compute. discriminate.
Defined.

Lemma ToLength_int (k : Z) :
  (0 <= k < 9007199254740992)%Z -> ToLength (Js.int k) = Z.to_nat k.
Proof.
  intros H. unfold ToLength, Js.int. rewrite Qfloor_Z. f_equal. lia.
Qed.

Lemma ticks_snoc (st : LoadTestingState) (env : Env) (j : nat) (rs : RunState) :
  fold_left (fun rs t => tick st env t rs) (seq 0 (S j)) rs
  = tick st env j (fold_left (fun rs t => tick st env t rs) (seq 0 j) rs).
Proof. rewrite seq_S, fold_left_app. reflexivity. Qed.

(** X21. On a run of at least four ticks with [users] users asked for, every
    tick sends between one request and [users] requests: the requests of
    the run number at least one and at most [users] per metric point, every
    metric point shows between 1 and [users] active users and as many
    requests per second, and the request rate of the summary is at most
    [users]. *)
Theorem run_load_within_limits (st : LoadTestingState) (env : Env) :
  (4 <= duration st <= 2 ^ 53)%Z -> (1 <= concurrentUsers st <= 2 ^ 46)%Z ->
  (Z.abs (rampUp st) <= 2 ^ 53)%Z ->
  let ms := fst (runTest st env) in
  let s := snd (runTest st env) in
  (Z.of_nat (List.length ms) <= TestSummary.totalRequests s
   <= concurrentUsers st * Z.of_nat (List.length ms))%Z /\
  Forall (within_load (concurrentUsers st)) ms /\
  exists r, TestSummary.rps s = Fin r /\ 0 <= r <= inject_Z (concurrentUsers st).
Proof.
  intros Hd Hm Hr. cbv zeta. unfold runTest, finalRun. cbn [fst snd].
  set (m := concurrentUsers st) in *. set (d := duration st) in *.
  destruct (loop_ticks st env (Z.to_nat d) 0 initialRun) as (j & Hj & -> & _).
  change (2 ^ 46)%Z with 70368744177664%Z in Hm.
  assert (Q : forall i, (i <= j)%nat ->
            let rs := fold_left (fun rs t => tick st env t rs) (seq 0 i) initialRun in
            List.length (metrics rs) = i /\
            (Z.of_nat i <= totalReqs rs <= m * Z.of_nat i)%Z /\
            Forall (within_load m) (metrics rs)).
  { induction i as [|i IH]; intros Hi; cbv zeta.
    - cbn. repeat split; try lia. constructor.
    - rewrite ticks_snoc. destruct (IH ltac:(lia)) as (Len & Tot & F).
      set (rs := fold_left (fun rs t => tick st env t rs) (seq 0 i) initialRun) in *.
      destruct (profileUsers_range (testProfile st) (Z.of_nat i) d m (rampUp st)
                  Hd ltac:(lia) ltac:(change (2 ^ 53)%Z with 9007199254740992%Z; lia) Hr)
        as (k & Ek & Hk).
      assert (Eu : tickUsers st i = Js.int k) by exact Ek.
      assert (Len' : Z.of_nat (List.length (tickOutcomes st env i)) = k).
      { unfold tickOutcomes. rewrite length_map, length_seq, Eu, ToLength_int by lia. lia. }
      unfold tick. cbn [metrics totalReqs]. rewrite Len'.
      split; [rewrite length_app, Len; cbn; lia|]. split; [lia|].
      apply Forall_app. split; [exact F|]. constructor; [|constructor].
      split; cbn [MetricPoint.activeUsers MetricPoint.rps].
      + exists k. split; [exact Eu | exact Hk].
      + replace (Z.of_nat i + 1)%Z with (Z.of_nat (S i)) by lia.
        destruct (rps_bounds (totalReqs rs + k) (Z.of_nat (S i)) 1 m) as (q & -> & Hq);
          try (unfold safe; lia).
        exists q. split; [reflexivity | exact Hq]. }
  destruct (Q j (Nat.le_refl j)) as (Len & Tot & F).
  set (rs := fold_left (fun rs t => tick st env t rs) (seq 0 j) initialRun) in *.
  unfold summarize. cbn [TestSummary.totalRequests TestSummary.rps]. fold d.
  rewrite Len. split; [exact Tot|]. split; [exact F|].
  replace (0 <? d)%Z with true by (symmetry; apply Z.ltb_lt; lia).
  destruct (rps_bounds (totalReqs rs) d 0 m) as (q & -> & Hq);
    try (unfold safe; lia); [nia|].
  exists q. split; [reflexivity | exact Hq].
Qed.

Lemma run_load_within_limits_witness :
  let st := with_load sampleState stress 10 30 5 in
  let ms := fst (runTest st sampleEnv) in
  let s := snd (runTest st sampleEnv) in
  (Z.of_nat (List.length ms) <= TestSummary.totalRequests s
   <= 10 * Z.of_nat (List.length ms))%Z /\
  Forall (within_load 10) ms /\
  exists r, TestSummary.rps s = Fin r /\ 0 <= r <= inject_Z 10.
Proof.
  apply (run_load_within_limits (with_load sampleState stress 10 30 5) sampleEnv);
    simpl; lia.
Defined.

(** ** A steady run *)












(** ** The response status *)

(** X24. The text colour and the background of a response status are of
    the same family, whatever the status is: destructive for 0, the status
    of a failed request, and for what is neither below 300 nor below 400,
    NaN included. *)
Theorem status_classes_agree (status : number) :
  exists family,
    getStatusColor status = ("text-" ++ family)%string /\
    getStatusBg status = ("bg-" ++ family ++ "/10")%string /\
    (family = "success" \/ family = "warning" \/ family = "destructive") /\
    (strict_eq status (Js.int 0) = true \/ (status <? Js.int 400)%js = false ->
     family = "destructive").
Proof.
  unfold getStatusColor, getStatusBg.
  destruct (strict_eq status (Js.int 0)) eqn:Z0.
  { exists "destructive". repeat split; auto. }
  destruct (status <? Js.int 300)%js eqn:L3.
  { exists "success". repeat split; auto. intros [H | H]; [discriminate|].
    exfalso. destruct status as [| [] | q]; try discriminate.
    unfold Js.ltb, Js.compare, Js.int in *.
    destruct (Qcompare_spec q (inject_Z 300)) as [E | E | E]; try discriminate.
    destruct (Qcompare_spec q (inject_Z 400)) as [E' | E' | E']; try discriminate;
      change (inject_Z 300) with 300 in E; change (inject_Z 400) with 400 in E'; lra. }
  destruct (status <? Js.int 400)%js eqn:L4.
  { exists "warning". repeat split; auto. intros [H | H]; discriminate. }
  exists "destructive". repeat split; auto.
Qed.

(** ** Witnesses of earlier lemmas *)

Lemma rampup_getUsers_within_one_witness :
  exists k, rampup_getUsers (Js.int 14) (Js.int 45) (Js.int 22) (Js.int 22) = Js.int k
            /\ (Spec.rampup 14 22 22 - 1 <= k <= Spec.rampup 14 22 22)%Z.
Proof.
  apply (rampup_getUsers_within_one 14 22 22 (Js.int 45)); simpl; lia.
Defined.

Lemma summarize_completion_order_witness :
  summarize sampleState
    {| allTimes := [120; 0; 35]%Z; totalReqs := 4; errors := 1; metrics := [] |}
  = summarize sampleState
      {| allTimes := [0; 35; 120]%Z; totalReqs := 4; errors := 1; metrics := [] |}.
Proof.
  apply (summarize_completion_order sampleState
           {| allTimes := [120; 0; 35]%Z; totalReqs := 4; errors := 1; metrics := [] |}
           {| allTimes := [0; 35; 120]%Z; totalReqs := 4; errors := 1; metrics := [] |});
    [|reflexivity..].
  cbn [allTimes]. apply (Permutation_cons_app [0; 35]%Z []). apply Permutation_refl.
Defined.
